(** * The Laplace mechanisms of diffprivlib/mechanisms/laplace.py

    A shallow embedding of the module and the properties its
    specification states about it.

    Numbers.  The program computes on IEEE-754 doubles (Python [float] and
    numpy [float64]).  They are embedded as extended reals: a finite value
    is an exact real number, and the three special values the program can
    produce and test ([inf], [-inf], [nan]) are kept, with the IEEE rules
    for them.  Rounding, overflow and underflow of finite results and the
    sign of zero are not modelled, with one exception: Python's [**]
    raises [OverflowError] where the square of a finite number is beyond
    the largest double.  A property is therefore stated as the
    expression a method evaluates, or as a bound that is not strict and
    that rounding respects, on magnitudes where nothing overflows.

    Effects.  A mechanism is a mutable object; every method is a function
    from the object before the call to an outcome and the object after
    it.  An outcome is a returned value, a raised exception, or fuel
    exhaustion in the loop of the scale solver or in the reflections of
    the domain collaborator.  The draw of [numpy.random.random] is an
    explicit argument of [randomise]. *)

From Stdlib Require Import Reals Lra String Bool.
Open Scope R_scope.

(** ** Comparisons of reals as booleans *)

Definition Rltb (x y : R) : bool := if Rlt_dec x y then true else false.
Definition Rleb (x y : R) : bool := if Rle_dec x y then true else false.
Definition Reqb (x y : R) : bool := if Req_dec_T x y then true else false.

(** [numpy.sign] on a finite value. *)
Definition Rsign (x : R) : R :=
  if Rltb 0 x then 1 else if Rltb x 0 then -1 else 0.

(** ** Doubles *)

Inductive float64 : Type :=
| Fin (r : R)
| PInf
| NInf
| NaN.

Module F.

Definition neg (x : float64) : float64 :=
  match x with
  | Fin a => Fin (- a)
  | PInf => NInf
  | NInf => PInf
  | NaN => NaN
  end.

Definition add (x y : float64) : float64 :=
  match x, y with
  | NaN, _ | _, NaN => NaN
  | Fin a, Fin b => Fin (a + b)
  | PInf, NInf | NInf, PInf => NaN
  | PInf, _ | _, PInf => PInf
  | NInf, _ | _, NInf => NInf
  end.

Definition sub (x y : float64) : float64 := add x (neg y).

(** The infinity whose sign is the sign of [a]; [nan] for zero
    ([0 * inf]). *)
Definition signed_inf (a : R) : float64 :=
  if Rltb 0 a then PInf else if Rltb a 0 then NInf else NaN.

Definition mul (x y : float64) : float64 :=
  match x, y with
  | NaN, _ | _, NaN => NaN
  | Fin a, Fin b => Fin (a * b)
  | Fin a, PInf | PInf, Fin a => signed_inf a
  | Fin a, NInf | NInf, Fin a => signed_inf (- a)
  | PInf, PInf | NInf, NInf => PInf
  | PInf, NInf | NInf, PInf => NaN
  end.

(** Division of numpy scalars: a zero divisor gives an infinity or
    [nan] (and a warning), never an exception. *)
Definition div (x y : float64) : float64 :=
  match x, y with
  | NaN, _ | _, NaN => NaN
  | Fin a, Fin b => if Reqb b 0 then signed_inf a else Fin (a / b)
  | Fin _, PInf | Fin _, NInf => Fin 0
  | PInf, Fin b => if Rltb b 0 then NInf else PInf
  | NInf, Fin b => if Rltb b 0 then PInf else NInf
  | PInf, _ | NInf, _ => NaN
  end.

Definition abs (x : float64) : float64 :=
  match x with
  | Fin a => Fin (Rabs a)
  | PInf | NInf => PInf
  | NaN => NaN
  end.

(** [numpy.sign] *)
Definition sign (x : float64) : float64 :=
  match x with
  | Fin a => Fin (Rsign a)
  | PInf => Fin 1
  | NInf => Fin (-1)
  | NaN => NaN
  end.

(** [numpy.exp] *)
Definition exp (x : float64) : float64 :=
  match x with
  | Fin a => Fin (Rtrigo_def.exp a)
  | PInf => PInf
  | NInf => Fin 0
  | NaN => NaN
  end.

(** [numpy.log]: [-inf] at zero and [nan] below it, with a warning and
    no exception. *)
Definition log (x : float64) : float64 :=
  match x with
  | Fin a => if Rltb 0 a then Fin (ln a) else if Reqb a 0 then NInf else NaN
  | PInf => PInf
  | NInf => NaN
  | NaN => NaN
  end.

(** Comparisons: every comparison with [nan] is false. *)
Definition ltb (x y : float64) : bool :=
  match x, y with
  | NaN, _ | _, NaN => false
  | Fin a, Fin b => Rltb a b
  | NInf, NInf | PInf, _ | Fin _, NInf => false
  | NInf, _ | Fin _, PInf => true
  end.

Definition leb (x y : float64) : bool :=
  match x, y with
  | NaN, _ | _, NaN => false
  | Fin a, Fin b => Rleb a b
  | NInf, _ | _, PInf => true
  | PInf, _ | _, NInf => false
  end.

Definition eqb (x y : float64) : bool :=
  match x, y with
  | Fin a, Fin b => Reqb a b
  | PInf, PInf | NInf, NInf => true
  | _, _ => false
  end.

Definition gtb (x y : float64) : bool := ltb y x.
Definition geb (x y : float64) : bool := leb y x.

(** The builtins [min(a, b)] and [max(a, b)] of Python: the first
    argument unless the second is strictly smaller (larger). *)
Definition min (a b : float64) : float64 := if ltb b a then b else a.
Definition max (a b : float64) : float64 := if gtb b a then b else a.

End F.

Declare Scope float_scope.
Delimit Scope float_scope with fl.
Bind Scope float_scope with float64.
Notation "x + y" := (F.add x y) : float_scope.
Notation "x - y" := (F.sub x y) : float_scope.
Notation "x * y" := (F.mul x y) : float_scope.
Notation "x / y" := (F.div x y) : float_scope.
Notation "- x" := (F.neg x) : float_scope.

(** ** Python values, exceptions and outcomes *)

(** The values a caller can pass or a method can return.  Every number
    ([int], [float], [numpy.float64]) is a [VNum]: these are the
    instances of [numbers.Real]. *)
Inductive pyval : Type :=
| VNum (x : float64)
| VStr (s : string)
| VNone
| VNotImplemented.

Definition isinstance_Real (v : pyval) : bool :=
  match v with
  | VNum _ => true
  | _ => false
  end.

Inductive exn : Type :=
| TypeError (msg : string)
| ValueError (msg : string)
| ZeroDivisionError (msg : string)
| OverflowError (msg : string)
| NotImplementedError (msg : string).

Inductive res (A : Type) : Type :=
| Ok (a : A)
| Raise (e : exn)
| OutOfFuel.
Arguments Ok {A} a.
Arguments Raise {A} e.
Arguments OutOfFuel {A}.

(** ** The mechanism object *)

Inductive variant : Type :=
| CLaplace
| CLaplaceTruncated
| CLaplaceFolded
| CLaplaceBoundedDomain
| CLaplaceBoundedNoise.

(** The attributes of an instance; [None] is Python's [None].  [cls] is
    the class of the object, which decides what [self.check_inputs] and
    [self.get_bias] call. *)
Record mech : Type := Mech {
  cls : variant;
  _epsilon : option float64;
  _delta : option float64;
  _sensitivity : option float64;
  _lower_bound : option float64;
  _upper_bound : option float64;
  _scale : option float64;
  _shape : option float64;
  _noise_bound : option float64
}.

(** [__init__]: every attribute is [None]. *)
Definition init (c : variant) : mech :=
  Mech c None None None None None None None None.

Definition with_epsilon_delta (e d : float64) (m : mech) : mech :=
  Mech (cls m) (Some e) (Some d) (_sensitivity m) (_lower_bound m)
       (_upper_bound m) (_scale m) (_shape m) (_noise_bound m).

Definition with_sensitivity (s : float64) (m : mech) : mech :=
  Mech (cls m) (_epsilon m) (_delta m) (Some s) (_lower_bound m)
       (_upper_bound m) (_scale m) (_shape m) (_noise_bound m).

Definition with_bounds (lo up : float64) (m : mech) : mech :=
  Mech (cls m) (_epsilon m) (_delta m) (_sensitivity m) (Some lo)
       (Some up) (_scale m) (_shape m) (_noise_bound m).

Definition with_scale (b : float64) (m : mech) : mech :=
  Mech (cls m) (_epsilon m) (_delta m) (_sensitivity m) (_lower_bound m)
       (_upper_bound m) (Some b) (_shape m) (_noise_bound m).

Definition with_shape (sh : float64) (m : mech) : mech :=
  Mech (cls m) (_epsilon m) (_delta m) (_sensitivity m) (_lower_bound m)
       (_upper_bound m) (_scale m) (Some sh) (_noise_bound m).

Definition with_noise_bound (nb : float64) (m : mech) : mech :=
  Mech (cls m) (_epsilon m) (_delta m) (_sensitivity m) (_lower_bound m)
       (_upper_bound m) (_scale m) (_shape m) (Some nb).

(** ** Methods: state and exceptions *)

Definition M (A : Type) : Type := mech -> res A * mech.

Definition ret {A} (a : A) : M A := fun m => (Ok a, m).
Definition raise {A} (e : exn) : M A := fun m => (Raise e, m).
Definition bind {A B} (c : M A) (k : A -> M B) : M B :=
  fun m =>
    match c m with
    | (Ok a, m') => k a m'
    | (Raise e, m') => (Raise e, m')
    | (OutOfFuel, m') => (OutOfFuel, m')
    end.
Definition get : M mech := fun m => (Ok m, m).
Definition put (m' : mech) : M unit := fun _ => (Ok tt, m').
Definition lift {A} (r : res A) : M A := fun m => (r, m).

Notation "x <- c ;; k" := (bind c (fun x => k))
  (at level 61, c at next level, right associativity).
Notation "c ;;; k" := (bind c (fun _ => k))
  (at level 61, right associativity).

(** Reading an attribute for arithmetic: an operand that is [None]
    makes Python raise [TypeError]. *)
Definition attr (f : mech -> option float64) : M float64 :=
  fun m =>
    match f m with
    | Some x => (Ok x, m)
    | None => (Raise (TypeError "unsupported operand type(s)"), m)
    end.

(** A caller's value used as a number.  Where Python's own arithmetic
    and numpy's differ on it (a zero divisor, a power that overflows),
    the methods below take it to be a Python [int] or [float]. *)
Definition as_number (v : pyval) : M float64 :=
  match v with
  | VNum x => ret x
  | _ => raise (TypeError "unsupported operand type(s)")
  end.

(** [a / b] on two Python floats: a zero divisor raises. *)
Definition pydiv (a b : float64) : M float64 :=
  if F.eqb b (Fin 0) then raise (ZeroDivisionError "float division by zero")
  else ret (a / b)%fl.

(** The largest finite double, [(2 - 2^-52) * 2^1023]. *)
Definition max_double : R := (2 - / 2 ^ 52) * 2 ^ 1023.

(** [x ** 2] on a Python float: a finite [x] whose square is beyond the
    largest double raises [OverflowError]; an infinite [x] gives [inf]
    and [nan] gives [nan]. *)
Definition pypow2 (x : float64) : M float64 :=
  match x with
  | Fin a =>
      if Rltb max_double (a * a) then
        raise (OverflowError "(34, 'Numerical result out of range')")
      else ret (Fin (a * a))
  | PInf | NInf => ret PInf
  | NaN => ret NaN
  end.

(** ** The collaborators of the module *)

Module DPMechanism.

(** Modelled from the spec: [DPMechanism.set_epsilon_delta] is not in
    the source given; the spec has it store epsilon and delta after
    validating that epsilon is numeric and positive (the range of
    delta is the variant's own). *)
Definition set_epsilon_delta (epsilon delta : pyval) : M mech :=
  match epsilon, delta with
  | VNum e, VNum d =>
      if F.gtb e (Fin 0) then
        m <- get ;; put (with_epsilon_delta e d m) ;;; get
      else raise (ValueError "Epsilon must be strictly positive")
  | _, _ => raise (TypeError "Epsilon and delta must be numeric")
  end.

(** Modelled from the spec: [DPMechanism.check_inputs] is not in the
    source given; the spec has it verify that epsilon is set and report
    a missing one as a configuration error. *)
Definition check_inputs (value : pyval) : M bool :=
  m <- get ;;
  match _epsilon m with
  | None => raise (ValueError "Epsilon must be set")
  | Some _ => ret true
  end.

End DPMechanism.

Module TruncationAndFoldingMachine.

(** Modelled from the spec: [set_bounds] is not in the source given;
    the spec has it require numeric bounds with [lower < upper]. *)
Definition set_bounds (lower upper : pyval) : M mech :=
  match lower, upper with
  | VNum lo, VNum up =>
      if F.ltb lo up then m <- get ;; put (with_bounds lo up m) ;;; get
      else raise (ValueError "Lower bound must be less than upper bound")
  | _, _ => raise (TypeError "Bounds must be numeric")
  end.

(** Modelled from the spec: [check_inputs] of the domain collaborator is
    not in the source given; the spec has it require that the bounds
    are set. *)
Definition check_inputs (value : pyval) : M bool :=
  m <- get ;;
  match _lower_bound m, _upper_bound m with
  | Some _, Some _ => ret true
  | _, _ => raise (ValueError "Upper and lower bounds must be set")
  end.

(** Modelled from the spec: [_truncate] is not in the source given; the
    spec has it clip its argument into [[lower, upper]]. *)
Definition _truncate (x : float64) : M float64 :=
  lo <- attr _lower_bound ;;
  up <- attr _upper_bound ;;
  if F.gtb x up then ret up
  else if F.ltb x lo then ret lo
  else ret x.

(** Modelled from the spec: [_fold] is not in the source given; the spec
    has it reflect its argument off the boundaries until it lies in
    [[lower, upper]].  The number of reflections is bounded by [fuel]. *)
Fixpoint fold_loop (fuel : nat) (lo up x : float64) : res float64 :=
  if F.ltb x lo then
    match fuel with
    | O => OutOfFuel
    | S n => fold_loop n lo up (Fin 2 * lo - x)%fl
    end
  else if F.gtb x up then
    match fuel with
    | O => OutOfFuel
    | S n => fold_loop n lo up (Fin 2 * up - x)%fl
    end
  else Ok x.

Definition _fold (fuel : nat) (x : float64) : M float64 :=
  lo <- attr _lower_bound ;;
  up <- attr _upper_bound ;;
  lift (fold_loop fuel lo up x).

End TruncationAndFoldingMachine.

(** ** class Laplace *)

(** [Laplace.set_sensitivity]; [float(sensitivity)] is the identity on
    a number, and [return self] returns the object after the update. *)
Definition Laplace_set_sensitivity (sensitivity : pyval) : M mech :=
  match sensitivity with
  | VNum s =>
      if F.leb s (Fin 0) then
        raise (ValueError "Sensitivity must be strictly positive")
      else
        m <- get ;; put (with_sensitivity s m) ;;; get
  | _ => raise (TypeError "Sensitivity must be numeric")
  end.

Definition Laplace_check_inputs (value : pyval) : M bool :=
  DPMechanism.check_inputs value ;;;
  if negb (isinstance_Real value) then
    raise (TypeError "Value to be randomised must be a number")
  else
    m <- get ;;
    match _sensitivity m with
    | None => raise (ValueError "Sensitivity must be set")
    | Some _ => ret true
    end.

Definition LaplaceTruncated_check_inputs (value : pyval) : M bool :=
  Laplace_check_inputs value ;;;
  TruncationAndFoldingMachine.check_inputs value ;;;
  ret true.

Definition LaplaceFolded_check_inputs (value : pyval) : M bool :=
  Laplace_check_inputs value ;;;
  TruncationAndFoldingMachine.check_inputs value ;;;
  ret true.

(** [self.check_inputs(value)]: the method of the object's class.
    [LaplaceBoundedDomain] inherits the one of [LaplaceTruncated] and
    [LaplaceBoundedNoise] the one of [Laplace]. *)
Definition self_check_inputs (value : pyval) : M bool :=
  m <- get ;;
  match cls m with
  | CLaplace | CLaplaceBoundedNoise => Laplace_check_inputs value
  | CLaplaceTruncated | CLaplaceBoundedDomain =>
      LaplaceTruncated_check_inputs value
  | CLaplaceFolded => LaplaceFolded_check_inputs value
  end.

Definition Laplace_get_bias (value : pyval) : M float64 :=
  ret (Fin 0).

Definition Laplace_get_variance (value : pyval) : M float64 :=
  self_check_inputs (VNum (Fin 0)) ;;;
  sens <- attr _sensitivity ;;
  eps <- attr _epsilon ;;
  q <- pydiv sens eps ;;
  sq <- pypow2 q ;;
  ret (Fin 2 * sq)%fl.

(** [Laplace.randomise]; [u] is the value of [random()] and [1/2]
    stands for the literal [0.5]. *)
Definition Laplace_randomise (value : pyval) (u : float64) : M float64 :=
  self_check_inputs value ;;;
  sens <- attr _sensitivity ;;
  eps <- attr _epsilon ;;
  scale <- pydiv sens eps ;;
  v <- as_number value ;;
  let unif_rv := (u - Fin (1/2))%fl in
  ret (v - scale * F.sign unif_rv
           * F.log (Fin 1 - Fin 2 * F.abs unif_rv))%fl.

(** ** class LaplaceTruncated *)

Definition LaplaceTruncated_get_bias (value : pyval) : M float64 :=
  self_check_inputs value ;;;
  sens <- attr _sensitivity ;;
  eps <- attr _epsilon ;;
  shape <- pydiv sens eps ;;
  lo <- attr _lower_bound ;;
  up <- attr _upper_bound ;;
  v <- as_number value ;;
  a <- pydiv (lo - v)%fl shape ;;
  b <- pydiv (v - up)%fl shape ;;
  ret (shape / Fin 2 * (F.exp a - F.exp b))%fl.

Definition LaplaceTruncated_randomise (value : pyval) (u : float64)
  : M float64 :=
  TruncationAndFoldingMachine.check_inputs value ;;;
  noisy_value <- Laplace_randomise value u ;;
  TruncationAndFoldingMachine._truncate noisy_value.

(** ** class LaplaceFolded *)

Definition LaplaceFolded_get_bias (value : pyval) : M float64 :=
  self_check_inputs value ;;;
  sens <- attr _sensitivity ;;
  eps <- attr _epsilon ;;
  shape <- pydiv sens eps ;;
  lo <- attr _lower_bound ;;
  up <- attr _upper_bound ;;
  v <- as_number value ;;
  a <- pydiv (lo + up - Fin 2 * v)%fl shape ;;
  let bias := (shape * (F.exp a - Fin 1))%fl in
  b <- pydiv (lo - v)%fl shape ;;
  c <- pydiv (up - v)%fl shape ;;
  ret (bias / (F.exp b + F.exp c))%fl.

(** The body of [LaplaceFolded.get_variance] is [pass]: the call
    returns [None]. *)
Definition LaplaceFolded_get_variance (value : pyval) : M pyval :=
  ret VNone.

Definition LaplaceFolded_randomise (fuel : nat) (value : pyval)
  (u : float64) : M float64 :=
  TruncationAndFoldingMachine.check_inputs value ;;;
  noisy_value <- Laplace_randomise value u ;;
  TruncationAndFoldingMachine._fold fuel noisy_value.

(** ** class LaplaceBoundedDomain *)

(** The two local functions of [_find_scale]; what they capture
    ([delta_q], [diam], [eps], [delta]) is passed explicitly. *)
Definition _delta_c (delta_q diam shape : float64) : float64 :=
  if F.eqb shape (Fin 0) then Fin 2
  else
    ((Fin 2 - F.exp (- delta_q / shape)
            - F.exp (- (diam - delta_q) / shape))
     / (Fin 1 - F.exp (- diam / shape)))%fl.

Definition _f (eps delta delta_q diam shape : float64) : float64 :=
  (delta_q / (eps - F.log (_delta_c delta_q diam shape)
                  - F.log ((Fin 1) - delta)))%fl.

(** The [while] loop of [_find_scale]; one unit of fuel per
    iteration.  The program leaves the loop when the interval of doubles
    stops shrinking.  On exact reals the interval halves at every
    iteration unless the middle is a root, so here the loop ends only
    where it is skipped, where it hits a root or where a [nan] fails the
    test; nothing below relies on another way out. *)
Fixpoint bisect (f : float64 -> float64) (fuel : nat)
  (old_interval_size left right : float64) {struct fuel} : res float64 :=
  if F.gtb old_interval_size (right - left)%fl then
    match fuel with
    | O => OutOfFuel
    | S n =>
        let old_interval_size := (right - left)%fl in
        let middle := ((right + left) / Fin 2)%fl in
        let left := if F.geb (f middle) middle then middle else left in
        let right := if F.leb (f middle) middle then middle else right in
        bisect f n old_interval_size left right
    end
  else Ok ((right + left) / Fin 2)%fl.

Definition LaplaceBoundedDomain__find_scale (fuel : nat) : M float64 :=
  eps <- attr _epsilon ;;
  let delta := Fin 0 in
  up <- attr _upper_bound ;;
  lo <- attr _lower_bound ;;
  let diam := (up - lo)%fl in
  delta_q <- attr _sensitivity ;;
  let left := (delta_q / (eps - F.log ((Fin 1) - delta)))%fl in
  let right := _f eps delta delta_q diam left in
  let old_interval_size := ((right - left) * Fin 2)%fl in
  lift (bisect (_f eps delta delta_q diam) fuel old_interval_size left right).

Definition LaplaceBoundedDomain__cdf (value : float64) : M float64 :=
  scale <- attr _scale ;;
  if F.eqb scale (Fin 0) then
    ret (if F.ltb value (Fin 0) then Fin 0 else Fin 1)
  else if F.ltb value (Fin 0) then
    ret (Fin (1/2) * F.exp (value / scale))%fl
  else
    ret (Fin 1 - Fin (1/2) * F.exp (- value / scale))%fl.

(** [if self._scale is None: self._scale = self._find_scale()] *)
Definition ensure_scale (fuel : nat) : M unit :=
  m <- get ;;
  match _scale m with
  | None =>
      b <- LaplaceBoundedDomain__find_scale fuel ;;
      m <- get ;;
      put (with_scale b m)
  | Some _ => ret tt
  end.

Definition LaplaceBoundedDomain_get_effective_epsilon (fuel : nat)
  : M float64 :=
  ensure_scale fuel ;;;
  sens <- attr _sensitivity ;;
  scale <- attr _scale ;;
  ret (sens / scale)%fl.

Definition LaplaceBoundedDomain_get_bias (fuel : nat) (value : pyval)
  : M float64 :=
  self_check_inputs value ;;;
  ensure_scale fuel ;;;
  scale <- attr _scale ;;
  lo <- attr _lower_bound ;;
  up <- attr _upper_bound ;;
  v <- as_number value ;;
  let bias :=
    ((scale - lo + v) / Fin 2 * F.exp ((lo - v) / scale)
     - (scale + up - v) / Fin 2 * F.exp ((v - up) / scale))%fl in
  ret (bias / (Fin 1 - F.exp ((lo - v) / scale) / Fin 2
                     - F.exp ((v - up) / scale) / Fin 2))%fl.

Definition LaplaceBoundedDomain_randomise (fuel : nat) (value : pyval)
  (u : float64) : M float64 :=
  self_check_inputs value ;;;
  ensure_scale fuel ;;;
  scale <- attr _scale ;;
  lo <- attr _lower_bound ;;
  up <- attr _upper_bound ;;
  v <- as_number value ;;
  let v := F.min v up in
  let v := F.max v lo in
  let unif_rv := u in
  c_up <- LaplaceBoundedDomain__cdf (up - v)%fl ;;
  c_lo <- LaplaceBoundedDomain__cdf (lo - v)%fl ;;
  let unif_rv := (unif_rv * (c_up - c_lo))%fl in
  c_lo <- LaplaceBoundedDomain__cdf (lo - v)%fl ;;
  let unif_rv := (unif_rv + c_lo)%fl in
  let unif_rv := (unif_rv - Fin (1/2))%fl in
  ret (v - scale * F.sign unif_rv
           * F.log (Fin 1 - Fin 2 * F.abs unif_rv))%fl.

(** ** class LaplaceBoundedNoise *)

(** [epsilon == 0] is false for a value that is not a number;
    [0 < delta < 0.5] raises [TypeError] for one. *)
Definition LaplaceBoundedNoise_set_epsilon_delta (epsilon delta : pyval)
  : M mech :=
  if match epsilon with VNum e => F.eqb e (Fin 0) | _ => false end then
    raise (ValueError
      "Epsilon must be strictly positive. For zero epsilon, use :class:`.Uniform`.")
  else
    match delta with
    | VNum d =>
        if negb (F.ltb (Fin 0) d && F.ltb d (Fin (1/2))) then
          raise (ValueError
            "Delta must be strictly in (0,0.5). For zero delta, use :class:`.Laplace`.")
        else DPMechanism.set_epsilon_delta epsilon delta
    | _ => raise (TypeError "'<' not supported")
    end.

Definition LaplaceBoundedNoise__cdf (value : float64) : M float64 :=
  shape <- attr _shape ;;
  if F.eqb shape (Fin 0) then
    ret (if F.ltb value (Fin 0) then Fin 0 else Fin 1)
  else if F.ltb value (Fin 0) then
    ret (Fin (1/2) * F.exp (value / shape))%fl
  else
    ret (Fin 1 - Fin (1/2) * F.exp (- value / shape))%fl.

Definition LaplaceBoundedNoise_get_bias (value : pyval) : M float64 :=
  ret (Fin 0).

(** The body of [LaplaceBoundedNoise.get_variance] is [pass]. *)
Definition LaplaceBoundedNoise_get_variance (value : pyval) : M pyval :=
  ret VNone.

(** The first statement of [LaplaceBoundedNoise.randomise] after the
    check: [_shape] is assigned before [_noise_bound] is computed. *)
Definition ensure_noise_bound : M unit :=
  m <- get ;;
  match _shape m, _noise_bound m with
  | Some _, Some _ => ret tt
  | _, _ =>
      sens <- attr _sensitivity ;;
      eps <- attr _epsilon ;;
      shape <- pydiv sens eps ;;
      m <- get ;;
      put (with_shape shape m) ;;;
      nb <- (if F.eqb shape (Fin 0) then ret (Fin (-1))
             else
               delta <- attr _delta ;;
               ret (shape * F.log (Fin 1 + (F.exp eps - Fin 1)
                                           / Fin 2 / delta))%fl) ;;
      m <- get ;;
      put (with_noise_bound nb m)
  end.

Definition LaplaceBoundedNoise_randomise (value : pyval) (u : float64)
  : M float64 :=
  self_check_inputs value ;;;
  ensure_noise_bound ;;;
  shape <- attr _shape ;;
  nb <- attr _noise_bound ;;
  v <- as_number value ;;
  let unif_rv := u in
  c_hi <- LaplaceBoundedNoise__cdf nb ;;
  c_lo <- LaplaceBoundedNoise__cdf (- nb)%fl ;;
  let unif_rv := (unif_rv * (c_hi - c_lo))%fl in
  c_lo <- LaplaceBoundedNoise__cdf (- nb)%fl ;;
  let unif_rv := (unif_rv + c_lo)%fl in
  let unif_rv := (unif_rv - Fin (1/2))%fl in
  ret (v - shape * (F.sign unif_rv
                    * F.log (Fin 1 - Fin 2 * F.abs unif_rv)))%fl.

(** ** The variance of the truncated and bounded-domain mechanisms *)

(** [self.get_bias(value)] inside the two [get_variance] below. *)
Definition self_get_bias (fuel : nat) (value : pyval) : M float64 :=
  m <- get ;;
  match cls m with
  | CLaplace => Laplace_get_bias value
  | CLaplaceTruncated => LaplaceTruncated_get_bias value
  | CLaplaceFolded => LaplaceFolded_get_bias value
  | CLaplaceBoundedDomain => LaplaceBoundedDomain_get_bias fuel value
  | CLaplaceBoundedNoise => LaplaceBoundedNoise_get_bias value
  end.

(** [value ** 2] and [shape ** 2] are powers of Python floats;
    [(self.get_bias(value) + value) ** 2] is the power of a numpy
    double, which overflows to [inf] without an exception. *)
Definition LaplaceTruncated_get_variance (fuel : nat) (value : pyval)
  : M float64 :=
  self_check_inputs value ;;;
  sens <- attr _sensitivity ;;
  eps <- attr _epsilon ;;
  shape <- pydiv sens eps ;;
  lo <- attr _lower_bound ;;
  up <- attr _upper_bound ;;
  v <- as_number value ;;
  v2 <- pypow2 v ;;
  a <- pydiv (lo - v)%fl shape ;;
  b <- pydiv (v - up)%fl shape ;;
  let variance :=
    (v2 + shape * (lo * F.exp a - up * F.exp b))%fl in
  shape2 <- pypow2 shape ;;
  let variance :=
    (variance + shape2 * (Fin 2 - F.exp a - F.exp b))%fl in
  bias <- self_get_bias fuel value ;;
  ret (variance - (bias + v) * (bias + v))%fl.

(** [value ** 2] and the squares of the two bounds are powers of
    Python floats; [self._scale ** 2] is the power of a numpy double. *)
Definition LaplaceBoundedDomain_get_variance (fuel : nat) (value : pyval)
  : M float64 :=
  self_check_inputs value ;;;
  ensure_scale fuel ;;;
  scale <- attr _scale ;;
  lo <- attr _lower_bound ;;
  up <- attr _upper_bound ;;
  v <- as_number value ;;
  let e_lo := F.exp ((lo - v) / scale)%fl in
  let e_up := F.exp ((v - up) / scale)%fl in
  variance <- pypow2 v ;;
  lo2 <- pypow2 lo ;;
  up2 <- pypow2 up ;;
  let variance :=
    (variance - (e_lo * lo2 + e_up * up2) / Fin 2)%fl in
  let variance :=
    (variance + scale * (lo * e_lo - up * e_up))%fl in
  let variance :=
    (variance + scale * scale * (Fin 2 - e_lo - e_up))%fl in
  let variance :=
    (variance / (Fin 1 - (F.exp (- (v - lo) / scale)
                          + F.exp (- (up - v) / scale)) / Fin 2))%fl in
  bias <- self_get_bias fuel value ;;
  ret (variance - (bias + v) * (bias + v))%fl.

(** ** Calls on an object: method resolution *)

(** [m.randomise(value)], [m.get_bias(value)] and
    [m.get_variance(value)] for an object [m] of each class. *)
Definition randomise (fuel : nat) (value : pyval) (u : float64)
  : M float64 :=
  m <- get ;;
  match cls m with
  | CLaplace => Laplace_randomise value u
  | CLaplaceTruncated => LaplaceTruncated_randomise value u
  | CLaplaceFolded => LaplaceFolded_randomise fuel value u
  | CLaplaceBoundedDomain => LaplaceBoundedDomain_randomise fuel value u
  | CLaplaceBoundedNoise => LaplaceBoundedNoise_randomise value u
  end.

Definition get_bias (fuel : nat) (value : pyval) : M pyval :=
  x <- self_get_bias fuel value ;; ret (VNum x).

Definition get_variance (fuel : nat) (value : pyval) : M pyval :=
  m <- get ;;
  match cls m with
  | CLaplace => x <- Laplace_get_variance value ;; ret (VNum x)
  | CLaplaceTruncated =>
      x <- LaplaceTruncated_get_variance fuel value ;; ret (VNum x)
  | CLaplaceFolded => LaplaceFolded_get_variance value
  | CLaplaceBoundedDomain =>
      x <- LaplaceBoundedDomain_get_variance fuel value ;; ret (VNum x)
  | CLaplaceBoundedNoise => LaplaceBoundedNoise_get_variance value
  end.

(** ** Vocabulary of the properties *)

(** The errors that report a missing parameter: the [ValueError]s whose
    message ends in "must be set". *)
Definition ends_with (suffix s : string) : bool :=
  let n := String.length suffix in
  let k := String.length s in
  Nat.leb n k && String.eqb (substring (k - n) n s) suffix.

Definition is_not_configured (e : exn) : bool :=
  match e with
  | ValueError msg => ends_with "must be set" msg
  | _ => false
  end.

(** An outcome that says the operation is not supported: Python's
    [NotImplementedError], or its [NotImplemented] value. *)
Definition is_not_supported (r : res pyval) : bool :=
  match r with
  | Raise (NotImplementedError _) => true
  | Ok VNotImplemented => true
  | _ => false
  end.

Definition is_set (o : option float64) : bool :=
  match o with
  | Some _ => true
  | None => false
  end.

(** What each class needs before its operations can compute: epsilon and
    the sensitivity, and the bounds where the class has a domain. *)
Definition complete (m : mech) : bool :=
  is_set (_epsilon m) && is_set (_sensitivity m) &&
  match cls m with
  | CLaplace | CLaplaceBoundedNoise => true
  | CLaplaceTruncated | CLaplaceFolded | CLaplaceBoundedDomain =>
      is_set (_lower_bound m) && is_set (_upper_bound m)
  end.

(** [lo <= x <= up] on doubles, false as soon as one of them is [nan]. *)
Definition within (lo up x : float64) : bool := F.leb lo x && F.leb x up.

(** What both [_cdf] methods return for a scale that is set: the
    zero-centred Laplace distribution function, and a step at zero for
    the scale 0. *)
Definition laplace_cdf (scale value : float64) : float64 :=
  if F.eqb scale (Fin 0) then
    if F.ltb value (Fin 0) then Fin 0 else Fin 1
  else if F.ltb value (Fin 0) then
    (Fin (1/2) * F.exp (value / scale))%fl
  else
    (Fin 1 - Fin (1/2) * F.exp (- value / scale))%fl.

(** The bias of the bounded-domain mechanism as the specification words
    it: the bias formula of the truncated mechanism,
    [s/2 * (exp((lower-value)/s) - exp((value-upper)/s))], at [s = b*],
    over the conditional mass. *)
Definition spec_bounded_domain_bias (b lo up v : R) : R :=
  b / 2 * (Rtrigo_def.exp ((lo - v) / b) - Rtrigo_def.exp ((v - up) / b))
  / (1 - 1/2 * Rtrigo_def.exp ((lo - v) / b)
       - 1/2 * Rtrigo_def.exp ((v - up) / b)).

(** The same bias as [LaplaceBoundedDomain.get_bias] computes it, on
    reals. *)
Definition code_bounded_domain_bias (b lo up v : R) : R :=
  ((b - lo + v) / 2 * Rtrigo_def.exp ((lo - v) / b)
   - (b + up - v) / 2 * Rtrigo_def.exp ((v - up) / b))
  / (1 - Rtrigo_def.exp ((lo - v) / b) / 2
       - Rtrigo_def.exp ((v - up) / b) / 2).

(** Two states of an object with the same class and the same
    parameters: epsilon, delta, the sensitivity and the bounds.  The
    cached [_scale], [_shape] and [_noise_bound] may differ. *)
Definition same_configuration (m m' : mech) : Prop :=
  cls m' = cls m
  /\ _epsilon m' = _epsilon m
  /\ _delta m' = _delta m
  /\ _sensitivity m' = _sensitivity m
  /\ _lower_bound m' = _lower_bound m
  /\ _upper_bound m' = _upper_bound m.

(** A method that keeps the parameters of the object, whatever its
    outcome. *)
Definition keeps_configuration {A} (c : M A) : Prop :=
  forall m, same_configuration m (snd (c m)).

(** The value of [laplace_cdf] at a finite non-zero scale, on reals. *)
Definition Rlaplace_cdf (b x : R) : R :=
  if Rltb x 0 then 1/2 * Rtrigo_def.exp (x / b)
  else 1 - 1/2 * Rtrigo_def.exp (- x / b).

(** The instances used below, written as the attributes they hold. *)
Definition laplace_cfg (c : variant) (eps delta sens : float64) : mech :=
  Mech c (Some eps) (Some delta) (Some sens) None None None None None.

Definition bounded_cfg (c : variant) (eps delta sens lo up : float64)
  : mech :=
  Mech c (Some eps) (Some delta) (Some sens) (Some lo) (Some up)
       None None None.

(** * Properties *)

(** ** Boolean comparisons *)

Lemma Rltb_true (x y : R) : x < y -> Rltb x y = true.
Proof. intros H. unfold Rltb. destruct (Rlt_dec x y); [reflexivity | contradiction]. Qed.

Lemma Rltb_false (x y : R) : y <= x -> Rltb x y = false.
Proof. intros H. unfold Rltb. destruct (Rlt_dec x y); [lra | reflexivity]. Qed.

Lemma Rleb_true (x y : R) : x <= y -> Rleb x y = true.
Proof. intros H. unfold Rleb. destruct (Rle_dec x y); [reflexivity | contradiction]. Qed.

Lemma Rleb_false (x y : R) : y < x -> Rleb x y = false.
Proof. intros H. unfold Rleb. destruct (Rle_dec x y); [lra | reflexivity]. Qed.

Lemma Reqb_true (x y : R) : x = y -> Reqb x y = true.
Proof. intros H. unfold Reqb. destruct (Req_dec_T x y); [reflexivity | contradiction]. Qed.

Lemma Reqb_false (x y : R) : x <> y -> Reqb x y = false.
Proof. intros H. unfold Reqb. destruct (Req_dec_T x y); [contradiction | reflexivity]. Qed.

Lemma Rltb_spec (x y : R) : Rltb x y = true <-> x < y.
Proof. unfold Rltb. destruct (Rlt_dec x y); split; intros; try lra; discriminate. Qed.

Lemma Rleb_spec (x y : R) : Rleb x y = true <-> x <= y.
Proof. unfold Rleb. destruct (Rle_dec x y); split; intros; try lra; discriminate. Qed.

(** Decides the comparisons of a goal whose truth [lra] can see. *)
Ltac rbool :=
  repeat first
    [ rewrite Rltb_true by lra
    | rewrite Rltb_false by lra
    | rewrite Rleb_true by lra
    | rewrite Rleb_false by lra
    | rewrite Reqb_true by lra
    | rewrite Reqb_false by lra ].

(** Unfolds the plumbing of the methods. *)
Ltac run :=
  unfold bind, ret, raise, get, put, lift, attr, as_number, pydiv; cbn.

(** ** Sequencing *)

Lemma bind_Ok {A B} (c : M A) (k : A -> M B) (m m' : mech) (a : A) :
  c m = (Ok a, m') -> bind c k m = k a m'.
Proof. intros H. unfold bind. rewrite H. reflexivity. Qed.

Lemma bind_Raise {A B} (c : M A) (k : A -> M B) (m m' : mech) (e : exn) :
  c m = (Raise e, m') -> bind c k m = (Raise e, m').
Proof. intros H. unfold bind. rewrite H. reflexivity. Qed.

Lemma bind_get {B} (k : mech -> M B) (m : mech) : bind get k m = k m m.
Proof. reflexivity. Qed.

Lemma bind_ret {A B} (a : A) (k : A -> M B) (m : mech) :
  bind (ret a) k m = k a m.
Proof. reflexivity. Qed.

Lemma bind_attr {B} (f : mech -> option float64) (k : float64 -> M B)
  (m : mech) (x : float64) :
  f m = Some x -> bind (attr f) k m = k x m.
Proof. intros H. unfold bind, attr. rewrite H. reflexivity. Qed.

(** ** The readiness check *)

Lemma Laplace_check_inputs_ok (x : float64) (m : mech) :
  is_set (_epsilon m) = true -> is_set (_sensitivity m) = true ->
  Laplace_check_inputs (VNum x) m = (Ok true, m).
Proof.
  intros He Hs. unfold Laplace_check_inputs, DPMechanism.check_inputs. run.
  destruct (_epsilon m); [| discriminate]. cbn.
  destruct (_sensitivity m); [reflexivity | discriminate].
Qed.

Lemma Laplace_check_inputs_unset (x : float64) (m : mech) :
  is_set (_epsilon m) && is_set (_sensitivity m) = false ->
  exists e, Laplace_check_inputs (VNum x) m = (Raise e, m)
            /\ is_not_configured e = true.
Proof.
  intros H. unfold Laplace_check_inputs, DPMechanism.check_inputs. run.
  destruct (_epsilon m); cbn in *.
  - destruct (_sensitivity m); [discriminate |].
    eexists; split; reflexivity.
  - eexists; split; reflexivity.
Qed.

Lemma domain_check_inputs_ok (v : pyval) (m : mech) :
  is_set (_lower_bound m) = true -> is_set (_upper_bound m) = true ->
  TruncationAndFoldingMachine.check_inputs v m = (Ok true, m).
Proof.
  intros Hl Hu. unfold TruncationAndFoldingMachine.check_inputs. run.
  destruct (_lower_bound m); [| discriminate].
  destruct (_upper_bound m); [reflexivity | discriminate].
Qed.

Lemma domain_check_inputs_unset (v : pyval) (m : mech) :
  is_set (_lower_bound m) && is_set (_upper_bound m) = false ->
  exists e, TruncationAndFoldingMachine.check_inputs v m = (Raise e, m)
            /\ is_not_configured e = true.
Proof.
  intros H. unfold TruncationAndFoldingMachine.check_inputs. run.
  destruct (_lower_bound m); cbn in *.
  - destruct (_upper_bound m); [discriminate |].
    eexists; split; reflexivity.
  - eexists; split; reflexivity.
Qed.

(** On a number, the check of the object's class either passes, leaving
    the object as it is, or reports a missing parameter. *)
Lemma self_check_inputs_cases (x : float64) (m : mech) :
  (complete m = true /\ self_check_inputs (VNum x) m = (Ok true, m))
  \/ (complete m = false
      /\ exists e, self_check_inputs (VNum x) m = (Raise e, m)
                   /\ is_not_configured e = true).
Proof.
  unfold complete, self_check_inputs, LaplaceTruncated_check_inputs,
    LaplaceFolded_check_inputs.
  rewrite bind_get.
  destruct (is_set (_epsilon m) && is_set (_sensitivity m)) eqn:Hes.
  - apply andb_true_iff in Hes as [He Hs].
    pose proof (Laplace_check_inputs_ok x m He Hs) as HL.
    destruct (is_set (_lower_bound m) && is_set (_upper_bound m)) eqn:Hb.
    + apply andb_true_iff in Hb as [Hl Hu].
      pose proof (domain_check_inputs_ok (VNum x) m Hl Hu) as HD.
      left. destruct (cls m); cbn [andb];
        rewrite ?(bind_Ok _ _ _ _ _ HL), ?(bind_Ok _ _ _ _ _ HD); auto.
    + destruct (domain_check_inputs_unset (VNum x) m Hb) as (e & HD & Hn).
      destruct (cls m); cbn [andb];
        rewrite ?(bind_Ok _ _ _ _ _ HL), ?(bind_Raise _ _ _ _ _ HD);
        (left; split; [reflexivity | assumption])
        || (right; split; [reflexivity | eauto]).
  - destruct (Laplace_check_inputs_unset x m Hes) as (e & HL & Hn).
    right. split; [reflexivity |].
    destruct (cls m); rewrite ?(bind_Raise _ _ _ _ _ HL); eauto.
Qed.

Lemma self_check_inputs_complete (x : float64) (m : mech) :
  complete m = true -> self_check_inputs (VNum x) m = (Ok true, m).
Proof.
  intros H. destruct (self_check_inputs_cases x m) as [[_ E] | [E _]];
    [exact E | congruence].
Qed.

Lemma self_check_inputs_incomplete (x : float64) (m : mech) :
  complete m = false ->
  exists e, self_check_inputs (VNum x) m = (Raise e, m)
            /\ is_not_configured e = true.
Proof.
  intros H. destruct (self_check_inputs_cases x m) as [[E _] | [_ E]];
    [congruence | exact E].
Qed.

Lemma Laplace_randomise_incomplete (x u : float64) (m : mech) :
  complete m = false ->
  exists e, Laplace_randomise (VNum x) u m = (Raise e, m)
            /\ is_not_configured e = true.
Proof.
  intros H. destruct (self_check_inputs_incomplete x m H) as (e & Hc & Hn).
  exists e. split; [| exact Hn].
  unfold Laplace_randomise. apply bind_Raise. exact Hc.
Qed.

(** A class with a domain checks its bounds first and then runs
    [Laplace.randomise], whose check covers the rest. *)
Lemma domain_then_Laplace_randomise_incomplete {B} (x u : float64)
  (k : float64 -> M B) (m : mech) :
  complete m = false ->
  exists e,
    (TruncationAndFoldingMachine.check_inputs (VNum x) ;;;
     noisy_value <- Laplace_randomise (VNum x) u ;; k noisy_value) m
    = (Raise e, m)
    /\ is_not_configured e = true.
Proof.
  intros H.
  destruct (is_set (_lower_bound m) && is_set (_upper_bound m)) eqn:Hb.
  - apply andb_true_iff in Hb as [Hl Hu].
    destruct (Laplace_randomise_incomplete x u m H) as (e & Hr & Hn).
    exists e. split; [| exact Hn].
    rewrite (bind_Ok _ _ _ _ _ (domain_check_inputs_ok (VNum x) m Hl Hu)).
    apply bind_Raise. exact Hr.
  - destruct (domain_check_inputs_unset (VNum x) m Hb) as (e & Hd & Hn).
    exists e. split; [| exact Hn]. apply bind_Raise. exact Hd.
Qed.

Lemma randomise_incomplete (fuel : nat) (x u : float64) (m : mech) :
  complete m = false ->
  exists e, randomise fuel (VNum x) u m = (Raise e, m)
            /\ is_not_configured e = true.
Proof.
  intros H. unfold randomise. rewrite bind_get.
  destruct (self_check_inputs_incomplete x m H) as (e & Hc & Hn).
  destruct (cls m) eqn:Hcls.
  - apply Laplace_randomise_incomplete; exact H.
  - apply domain_then_Laplace_randomise_incomplete; exact H.
  - apply domain_then_Laplace_randomise_incomplete; exact H.
  - exists e. split; [| exact Hn].
    unfold LaplaceBoundedDomain_randomise. apply bind_Raise. exact Hc.
  - exists e. split; [| exact Hn].
    unfold LaplaceBoundedNoise_randomise. apply bind_Raise. exact Hc.
Qed.

Lemma unset_sensitivity_incomplete (m : mech) :
  _sensitivity m = None -> complete m = false.
Proof.
  intros H. unfold complete. rewrite H. cbn.
  rewrite andb_false_r. reflexivity.
Qed.

(** ** Setters *)

(** C9.  [set_sensitivity] raises [ValueError] on every number that is
    [<= 0] and [TypeError] on every value that is not a number, and the
    object is then as before; on any other number it stores it and
    returns the object.  [LaplaceBoundedNoise.set_epsilon_delta] raises
    [ValueError] for every number [delta] that is not strictly between 0
    and 0.5, whatever epsilon is.  [randomise] on a number raises a
    missing-parameter error, for every class, as long as no sensitivity
    is set. *)
Theorem C9_setter_and_readiness_validation :
  (forall (m : mech) (s : float64),
      F.leb s (Fin 0) = true ->
      Laplace_set_sensitivity (VNum s) m
      = (Raise (ValueError "Sensitivity must be strictly positive"), m))
  /\ (forall (m : mech) (v : pyval),
         isinstance_Real v = false ->
         Laplace_set_sensitivity v m
         = (Raise (TypeError "Sensitivity must be numeric"), m))
  /\ (forall (m : mech) (s : float64),
         F.leb s (Fin 0) = false ->
         Laplace_set_sensitivity (VNum s) m
         = (Ok (with_sensitivity s m), with_sensitivity s m))
  /\ (forall (m : mech) (epsilon : pyval) (d : float64),
         F.ltb (Fin 0) d && F.ltb d (Fin (1/2)) = false ->
         exists msg,
           LaplaceBoundedNoise_set_epsilon_delta epsilon (VNum d) m
           = (Raise (ValueError msg), m))
  /\ (forall (fuel : nat) (m : mech) (x u : float64),
         _sensitivity m = None ->
         exists e, randomise fuel (VNum x) u m = (Raise e, m)
                   /\ is_not_configured e = true).
Proof.
  refine (conj _ (conj _ (conj _ (conj _ _)))).
  - intros m s H. unfold Laplace_set_sensitivity. rewrite H. reflexivity.
  - intros m v H. destruct v; try reflexivity. discriminate.
  - intros m s H. unfold Laplace_set_sensitivity. rewrite H. reflexivity.
  - intros m epsilon d H. unfold LaplaceBoundedNoise_set_epsilon_delta.
    rewrite H. cbn [negb].
    destruct (match epsilon with VNum e => F.eqb e (Fin 0) | _ => false end);
      eexists; reflexivity.
  - intros fuel m x u H. apply randomise_incomplete.
    apply unset_sensitivity_incomplete. exact H.
Qed.

(** [set_sensitivity(-1)], [set_sensitivity("a")],
    [set_epsilon_delta(1.0, 0.6)] and [randomise(5)] on a new object. *)
Lemma C9_witness :
  Laplace_set_sensitivity (VNum (Fin (-1))) (init CLaplace)
  = (Raise (ValueError "Sensitivity must be strictly positive"), init CLaplace)
  /\ Laplace_set_sensitivity (VStr "a") (init CLaplace)
     = (Raise (TypeError "Sensitivity must be numeric"), init CLaplace)
  /\ Laplace_set_sensitivity (VNum (Fin 1)) (init CLaplace)
     = (Ok (with_sensitivity (Fin 1) (init CLaplace)),
        with_sensitivity (Fin 1) (init CLaplace))
  /\ (exists msg,
         LaplaceBoundedNoise_set_epsilon_delta (VNum (Fin 1)) (VNum (Fin (6/10)))
           (init CLaplaceBoundedNoise)
         = (Raise (ValueError msg), init CLaplaceBoundedNoise))
  /\ (exists e, randomise 0 (VNum (Fin 5)) (Fin (1/4)) (init CLaplace)
                = (Raise e, init CLaplace)
                /\ is_not_configured e = true).
Proof.
  destruct C9_setter_and_readiness_validation as (H1 & H2 & H3 & H4 & H5).
  refine (conj _ (conj _ (conj _ (conj _ _)))).
  - apply H1. cbn. apply Rleb_true. lra.
  - apply H2. reflexivity.
  - apply H3. cbn. apply Rleb_false. lra.
  - apply H4. cbn. rewrite (Rltb_false (6/10) (1/2)) by lra.
    apply andb_false_r.
  - apply H5. reflexivity.
Defined.

(** ** Operations on an object that lacks a parameter *)

Lemma self_get_bias_incomplete (fuel : nat) (x : float64) (m : mech) :
  complete m = false ->
  match cls m with
  | CLaplace | CLaplaceBoundedNoise =>
      self_get_bias fuel (VNum x) m = (Ok (Fin 0), m)
  | CLaplaceTruncated | CLaplaceFolded | CLaplaceBoundedDomain =>
      exists e, self_get_bias fuel (VNum x) m = (Raise e, m)
                /\ is_not_configured e = true
  end.
Proof.
  intros H. destruct (self_check_inputs_incomplete x m H) as (e & Hc & Hn).
  unfold self_get_bias. rewrite bind_get.
  destruct (cls m) eqn:Hcls.
  - reflexivity.
  - exists e. split; [| exact Hn]. unfold LaplaceTruncated_get_bias.
    apply bind_Raise. exact Hc.
  - exists e. split; [| exact Hn]. unfold LaplaceFolded_get_bias.
    apply bind_Raise. exact Hc.
  - exists e. split; [| exact Hn]. unfold LaplaceBoundedDomain_get_bias.
    apply bind_Raise. exact Hc.
  - reflexivity.
Qed.

Lemma get_bias_incomplete (fuel : nat) (x : float64) (m : mech) :
  complete m = false ->
  match cls m with
  | CLaplace | CLaplaceBoundedNoise =>
      get_bias fuel (VNum x) m = (Ok (VNum (Fin 0)), m)
  | CLaplaceTruncated | CLaplaceFolded | CLaplaceBoundedDomain =>
      exists e, get_bias fuel (VNum x) m = (Raise e, m)
                /\ is_not_configured e = true
  end.
Proof.
  intros H. pose proof (self_get_bias_incomplete fuel x m H) as Hb.
  unfold get_bias.
  destruct (cls m); try (rewrite (bind_Ok _ _ _ _ _ Hb); reflexivity);
    destruct Hb as (e & Hb & Hn); exists e; (split; [| exact Hn]);
    apply bind_Raise; exact Hb.
Qed.

(** The three [get_variance] that are implemented. *)
Lemma get_variance_incomplete (fuel : nat) (x : float64) (m : mech) :
  complete m = false ->
  match cls m with
  | CLaplace | CLaplaceTruncated | CLaplaceBoundedDomain =>
      exists e, get_variance fuel (VNum x) m = (Raise e, m)
                /\ is_not_configured e = true
  | CLaplaceFolded | CLaplaceBoundedNoise => True
  end.
Proof.
  intros H. destruct (self_check_inputs_incomplete x m H) as (e & Hc & Hn).
  destruct (self_check_inputs_incomplete (Fin 0) m H) as (e0 & Hc0 & Hn0).
  unfold get_variance. rewrite bind_get.
  destruct (cls m) eqn:Hcls.
  - exists e0. split; [| exact Hn0]. unfold Laplace_get_variance.
    apply bind_Raise. apply bind_Raise. exact Hc0.
  - exists e. split; [| exact Hn]. unfold LaplaceTruncated_get_variance.
    apply bind_Raise. apply bind_Raise. exact Hc.
  - exact I.
  - exists e. split; [| exact Hn]. unfold LaplaceBoundedDomain_get_variance.
    apply bind_Raise. apply bind_Raise. exact Hc.
  - exact I.
Qed.

(** C5, as the code has it.  On an object that lacks epsilon, the
    sensitivity or a bound its class needs, and for every number:
    [randomise] of every class raises a missing-parameter error and
    leaves the object as it is, and so do [get_bias] of the truncated,
    folded and bounded-domain classes and [get_variance] of the base,
    truncated and bounded-domain classes; [get_bias] of the base and
    bounded-noise classes, whose bias depends on no parameter, returns
    0.0 without a check.  [get_variance] of the folded and bounded-noise
    classes has no implementation and is no part of the statement. *)
Theorem C5_incomplete_configuration (fuel : nat) (m : mech) (x u : float64) :
  complete m = false ->
  (exists e, randomise fuel (VNum x) u m = (Raise e, m)
             /\ is_not_configured e = true)
  /\ match cls m with
     | CLaplace | CLaplaceBoundedNoise =>
         get_bias fuel (VNum x) m = (Ok (VNum (Fin 0)), m)
     | CLaplaceTruncated | CLaplaceFolded | CLaplaceBoundedDomain =>
         exists e, get_bias fuel (VNum x) m = (Raise e, m)
                   /\ is_not_configured e = true
     end
  /\ match cls m with
     | CLaplace | CLaplaceTruncated | CLaplaceBoundedDomain =>
         exists e, get_variance fuel (VNum x) m = (Raise e, m)
                   /\ is_not_configured e = true
     | CLaplaceFolded | CLaplaceBoundedNoise => True
     end.
Proof.
  intros H. split; [| split].
  - apply randomise_incomplete; exact H.
  - apply get_bias_incomplete; exact H.
  - apply get_variance_incomplete; exact H.
Qed.

(** A truncated mechanism whose bounds were never set. *)
Lemma C5_witness :
  complete (laplace_cfg CLaplaceTruncated (Fin 1) (Fin 0) (Fin 1)) = false
  /\ (exists e,
         randomise 0 (VNum (Fin 5)) (Fin (1/4))
           (laplace_cfg CLaplaceTruncated (Fin 1) (Fin 0) (Fin 1))
         = (Raise e, laplace_cfg CLaplaceTruncated (Fin 1) (Fin 0) (Fin 1))
         /\ is_not_configured e = true).
Proof.
  split; [reflexivity |].
  apply (C5_incomplete_configuration 0
           (laplace_cfg CLaplaceTruncated (Fin 1) (Fin 0) (Fin 1))
           (Fin 5) (Fin (1/4))).
  reflexivity.
Defined.

(** C5 fails as stated: on a new base mechanism, with nothing set,
    [get_bias(0)] returns 0.0 and raises nothing. *)
Lemma C5_counterexample :
  complete (init CLaplace) = false
  /\ get_bias 0 (VNum (Fin 0)) (init CLaplace)
     = (Ok (VNum (Fin 0)), init CLaplace)
  /\ ~ (exists e, get_bias 0 (VNum (Fin 0)) (init CLaplace)
                  = (Raise e, init CLaplace)).
Proof.
  split; [reflexivity |]. split; [reflexivity |].
  intros [e H]. discriminate H.
Qed.

(** ** The variance that is not implemented *)

(** C6 at its failing inputs.  The body of [get_variance] of the folded
    and of the bounded-noise mechanism is [pass] under a docstring that
    promises the variance as a [float]: for every value and every
    object the call returns [None], which is neither the promised
    number nor an error nor an unsupported marker. *)
Theorem C6_get_variance_returns_None (v : pyval) (m : mech) :
  LaplaceFolded_get_variance v m = (Ok VNone, m)
  /\ LaplaceBoundedNoise_get_variance v m = (Ok VNone, m)
  /\ is_not_supported (fst (LaplaceFolded_get_variance v m)) = false
  /\ is_not_supported (fst (LaplaceBoundedNoise_get_variance v m)) = false.
Proof. repeat split. Qed.

(** ** The scale solver reads no delta *)

(** [_find_scale] is a function of epsilon, the bounds and the
    sensitivity, and leaves the object as it is. *)
Lemma find_scale_result (fuel : nat) (m : mech) :
  LaplaceBoundedDomain__find_scale fuel m
  = (match _epsilon m, _upper_bound m, _lower_bound m, _sensitivity m with
     | Some eps, Some up, Some lo, Some delta_q =>
         let left := (delta_q / (eps - F.log (Fin 1 - Fin 0)))%fl in
         let right := _f eps (Fin 0) delta_q (up - lo)%fl left in
         bisect (_f eps (Fin 0) delta_q (up - lo)%fl) fuel
           ((right - left) * Fin 2)%fl left right
     | _, _, _, _ => Raise (TypeError "unsupported operand type(s)")
     end, m).
Proof.
  unfold LaplaceBoundedDomain__find_scale, bind, attr, lift.
  destruct (_epsilon m); cbv beta iota zeta; [| reflexivity].
  destruct (_upper_bound m); cbv beta iota zeta; [| reflexivity].
  destruct (_lower_bound m); cbv beta iota zeta; [| reflexivity].
  destruct (_sensitivity m); reflexivity.
Qed.

Lemma find_scale_keeps_object (fuel : nat) (m : mech) :
  snd (LaplaceBoundedDomain__find_scale fuel m) = m.
Proof. rewrite find_scale_result. reflexivity. Qed.

(** [get_effective_epsilon] returns the sensitivity over the cached
    scale, or over the scale that [_find_scale] returns when none is
    cached. *)
Lemma get_effective_epsilon_result (fuel : nat) (m : mech) :
  fst (LaplaceBoundedDomain_get_effective_epsilon fuel m)
  = match (match _scale m with
           | Some b => Ok b
           | None => fst (LaplaceBoundedDomain__find_scale fuel m)
           end) with
    | Ok b =>
        match _sensitivity m with
        | Some s => Ok (s / b)%fl
        | None => Raise (TypeError "unsupported operand type(s)")
        end
    | Raise e => Raise e
    | OutOfFuel => OutOfFuel
    end.
Proof.
  unfold LaplaceBoundedDomain_get_effective_epsilon, ensure_scale.
  unfold bind at 1 2. unfold get at 1.
  destruct (_scale m) eqn:Hsc.
  - unfold ret, bind, attr.
    destruct (_sensitivity m); [rewrite Hsc |]; reflexivity.
  - pose proof (find_scale_keeps_object fuel m) as Hk.
    unfold bind at 1.
    destruct (LaplaceBoundedDomain__find_scale fuel m) as [r n].
    cbn [fst snd] in *. subst n.
    destruct r; try reflexivity.
    unfold get, put, bind, attr. cbn.
    destruct (_sensitivity m); reflexivity.
Qed.

(** C10.  Two bounded-domain objects with the same epsilon, sensitivity
    and bounds get the same result from [_find_scale], whatever their
    deltas are; with the same cached scale they also get the same
    result from [get_effective_epsilon]. *)
Theorem C10_scale_independent_of_delta (fuel : nat) (m1 m2 : mech) :
  _epsilon m1 = _epsilon m2 ->
  _sensitivity m1 = _sensitivity m2 ->
  _lower_bound m1 = _lower_bound m2 ->
  _upper_bound m1 = _upper_bound m2 ->
  fst (LaplaceBoundedDomain__find_scale fuel m1)
  = fst (LaplaceBoundedDomain__find_scale fuel m2)
  /\ (_scale m1 = _scale m2 ->
      fst (LaplaceBoundedDomain_get_effective_epsilon fuel m1)
      = fst (LaplaceBoundedDomain_get_effective_epsilon fuel m2)).
Proof.
  intros He Hs Hl Hu.
  assert (Hfind : fst (LaplaceBoundedDomain__find_scale fuel m1)
                  = fst (LaplaceBoundedDomain__find_scale fuel m2)).
  { rewrite !find_scale_result. cbn [fst].
    rewrite He, Hs, Hl, Hu. reflexivity. }
  split; [exact Hfind |].
  intros Hc. rewrite !get_effective_epsilon_result.
  rewrite <- Hc, <- Hs, <- Hfind. reflexivity.
Qed.

(** Two objects that differ in delta only. *)
Lemma C10_witness :
  fst (LaplaceBoundedDomain__find_scale 5
         (bounded_cfg CLaplaceBoundedDomain (Fin 1) (Fin 0) (Fin 1)
            (Fin 0) (Fin 1)))
  = fst (LaplaceBoundedDomain__find_scale 5
           (bounded_cfg CLaplaceBoundedDomain (Fin 1) (Fin (1/4)) (Fin 1)
              (Fin 0) (Fin 1)))
  /\ fst (LaplaceBoundedDomain_get_effective_epsilon 5
            (bounded_cfg CLaplaceBoundedDomain (Fin 1) (Fin 0) (Fin 1)
               (Fin 0) (Fin 1)))
     = fst (LaplaceBoundedDomain_get_effective_epsilon 5
              (bounded_cfg CLaplaceBoundedDomain (Fin 1) (Fin (1/4)) (Fin 1)
                 (Fin 0) (Fin 1))).
Proof.
  destruct (C10_scale_independent_of_delta 5
              (bounded_cfg CLaplaceBoundedDomain (Fin 1) (Fin 0) (Fin 1)
                 (Fin 0) (Fin 1))
              (bounded_cfg CLaplaceBoundedDomain (Fin 1) (Fin (1/4)) (Fin 1)
                 (Fin 0) (Fin 1))
              eq_refl eq_refl eq_refl eq_refl) as [H1 H2].
  split; [exact H1 | exact (H2 eq_refl)].
Defined.

(** ** The base sampler *)

Lemma complete_base (m : mech) (e s : float64) :
  cls m = CLaplace \/ cls m = CLaplaceBoundedNoise ->
  _epsilon m = Some e -> _sensitivity m = Some s -> complete m = true.
Proof.
  intros Hc He Hs. unfold complete. rewrite He, Hs.
  destruct Hc as [-> | ->]; reflexivity.
Qed.

(** The logarithm in the samplers, for a shifted draw strictly inside
    [(-1/2, 1/2)]. *)
Lemma log_of_shifted_draw (t : R) :
  -(1/2) < t < 1/2 ->
  F.log (Fin 1 - Fin 2 * F.abs (Fin t))%fl = Fin (ln (1 - 2 * Rabs t)).
Proof.
  intros Ht. cbn.
  assert (Rabs t < 1/2) by (apply Rabs_def1; lra).
  rewrite Rltb_true by lra. reflexivity.
Qed.

(** C1.  On a base mechanism with finite sensitivity [s > 0] and
    epsilon [e > 0], for a real value [v] and a draw [u] with
    [0 < u < 1], [randomise] returns exactly
    [v - (s/e) * sign(u - 0.5) * ln(1 - 2|u - 0.5|)] and leaves the
    object as it is: the result is a function of [v], [s], [e] and
    [u]. *)
Theorem C1_randomise_formula (m : mech) (s e v u : R) :
  cls m = CLaplace ->
  _sensitivity m = Some (Fin s) ->
  _epsilon m = Some (Fin e) ->
  0 < s -> 0 < e -> 0 < u < 1 ->
  Laplace_randomise (VNum (Fin v)) (Fin u) m
  = (Ok (Fin (v - s / e * Rsign (u - 1/2) * ln (1 - 2 * Rabs (u - 1/2)))),
     m).
Proof.
  intros Hc Hs He Hs0 He0 Hu.
  unfold Laplace_randomise.
  rewrite (bind_Ok _ _ _ _ _
             (self_check_inputs_complete (Fin v) m
                (complete_base m _ _ (or_introl Hc) He Hs))).
  rewrite (bind_attr _ _ _ _ Hs), (bind_attr _ _ _ _ He).
  unfold pydiv. cbn [F.eqb]. rewrite Reqb_false by lra.
  rewrite bind_ret. cbn [as_number]. rewrite bind_ret.
  change (Fin u - Fin (1/2))%fl with (Fin (u - 1/2)).
  rewrite log_of_shifted_draw by lra.
  cbn. rewrite Reqb_false by lra. reflexivity.
Qed.

(** The scenario of the specification: sensitivity 1, epsilon 2,
    value 0 and the draw 0.25. *)
Lemma C1_witness :
  Laplace_randomise (VNum (Fin 0)) (Fin (1/4))
    (laplace_cfg CLaplace (Fin 2) (Fin 0) (Fin 1))
  = (Ok (Fin (0 - 1 / 2 * Rsign (1/4 - 1/2)
                  * ln (1 - 2 * Rabs (1/4 - 1/2)))),
     laplace_cfg CLaplace (Fin 2) (Fin 0) (Fin 1)).
Proof.
  apply (C1_randomise_formula
           (laplace_cfg CLaplace (Fin 2) (Fin 0) (Fin 1)) 1 2 0 (1/4));
    try reflexivity; lra.
Defined.

(** ** The distribution function and the cached scale *)

Lemma BoundedDomain_cdf_result (m : mech) (b x : float64) :
  _scale m = Some b ->
  LaplaceBoundedDomain__cdf x m = (Ok (laplace_cdf b x), m).
Proof.
  intros H. unfold LaplaceBoundedDomain__cdf, laplace_cdf.
  rewrite (bind_attr _ _ _ _ H).
  destruct (F.eqb b (Fin 0)); [reflexivity |].
  destruct (F.ltb x (Fin 0)); reflexivity.
Qed.

Lemma BoundedNoise_cdf_result (m : mech) (b x : float64) :
  _shape m = Some b ->
  LaplaceBoundedNoise__cdf x m = (Ok (laplace_cdf b x), m).
Proof.
  intros H. unfold LaplaceBoundedNoise__cdf, laplace_cdf.
  rewrite (bind_attr _ _ _ _ H).
  destruct (F.eqb b (Fin 0)); [reflexivity |].
  destruct (F.ltb x (Fin 0)); reflexivity.
Qed.

Lemma ensure_scale_cached (fuel : nat) (m : mech) (b : float64) :
  _scale m = Some b -> ensure_scale fuel m = (Ok tt, m).
Proof.
  intros H. unfold ensure_scale. rewrite bind_get, H. reflexivity.
Qed.

Lemma ensure_scale_solved (fuel : nat) (m : mech) (b : float64) :
  _scale m = None ->
  LaplaceBoundedDomain__find_scale fuel m = (Ok b, m) ->
  ensure_scale fuel m = (Ok tt, with_scale b m).
Proof.
  intros H Hf. unfold ensure_scale. rewrite bind_get, H.
  rewrite (bind_Ok _ _ _ _ _ Hf). reflexivity.
Qed.

Lemma ensure_noise_bound_cached (m : mech) (sh nb : float64) :
  _shape m = Some sh -> _noise_bound m = Some nb ->
  ensure_noise_bound m = (Ok tt, m).
Proof.
  intros H1 H2. unfold ensure_noise_bound. rewrite bind_get, H1, H2.
  reflexivity.
Qed.

(** The bounded-domain sampler once the check has passed and a scale is
    cached: the value is clamped, the draw is mapped between the two
    values of the distribution function, and the result is computed
    without touching the object. *)
Lemma BoundedDomain_randomise_cached (fuel : nat) (m : mech)
  (b lo up x u : float64) :
  cls m = CLaplaceBoundedDomain ->
  complete m = true ->
  _scale m = Some b ->
  _lower_bound m = Some lo -> _upper_bound m = Some up ->
  LaplaceBoundedDomain_randomise fuel (VNum x) u m
  = (Ok (let v := F.max (F.min x up) lo in
         let t := (u * (laplace_cdf b (up - v) - laplace_cdf b (lo - v))
                   + laplace_cdf b (lo - v) - Fin (1/2))%fl in
         (v - b * F.sign t * F.log (Fin 1 - Fin 2 * F.abs t))%fl),
     m).
Proof.
  intros Hc Hcomp Hb Hlo Hup. unfold LaplaceBoundedDomain_randomise.
  rewrite (bind_Ok _ _ _ _ _ (self_check_inputs_complete x m Hcomp)).
  rewrite (bind_Ok _ _ _ _ _ (ensure_scale_cached fuel m b Hb)).
  rewrite (bind_attr _ _ _ _ Hb), (bind_attr _ _ _ _ Hlo),
    (bind_attr _ _ _ _ Hup).
  cbn [as_number]. rewrite bind_ret. cbv zeta.
  rewrite (bind_Ok _ _ _ _ _ (BoundedDomain_cdf_result m b _ Hb)).
  rewrite (bind_Ok _ _ _ _ _ (BoundedDomain_cdf_result m b _ Hb)).
  rewrite (bind_Ok _ _ _ _ _ (BoundedDomain_cdf_result m b _ Hb)).
  reflexivity.
Qed.

Lemma BoundedNoise_randomise_cached (m : mech) (sh nb x u : float64) :
  cls m = CLaplaceBoundedNoise ->
  complete m = true ->
  _shape m = Some sh -> _noise_bound m = Some nb ->
  LaplaceBoundedNoise_randomise (VNum x) u m
  = (Ok (let t := (u * (laplace_cdf sh nb - laplace_cdf sh (- nb))
                   + laplace_cdf sh (- nb) - Fin (1/2))%fl in
         (x - sh * (F.sign t * F.log (Fin 1 - Fin 2 * F.abs t)))%fl),
     m).
Proof.
  intros Hc Hcomp Hsh Hnb. unfold LaplaceBoundedNoise_randomise.
  rewrite (bind_Ok _ _ _ _ _ (self_check_inputs_complete x m Hcomp)).
  rewrite (bind_Ok _ _ _ _ _ (ensure_noise_bound_cached m sh nb Hsh Hnb)).
  rewrite (bind_attr _ _ _ _ Hsh), (bind_attr _ _ _ _ Hnb).
  cbn [as_number]. rewrite bind_ret. cbv zeta.
  rewrite (bind_Ok _ _ _ _ _ (BoundedNoise_cdf_result m sh _ Hsh)).
  rewrite (bind_Ok _ _ _ _ _ (BoundedNoise_cdf_result m sh _ Hsh)).
  rewrite (bind_Ok _ _ _ _ _ (BoundedNoise_cdf_result m sh _ Hsh)).
  reflexivity.
Qed.

(** ** Infinite epsilon: the scale 0 *)

Lemma bisect_stop (f : float64 -> float64) (fuel : nat)
  (old left right : float64) :
  F.gtb old (right - left)%fl = false ->
  bisect f fuel old left right = Ok ((right + left) / Fin 2)%fl.
Proof. intros H. destruct fuel; cbn; rewrite H; reflexivity. Qed.

(** With epsilon [inf] the solver returns the scale 0 without entering
    its loop. *)
Lemma find_scale_infinite_epsilon (fuel : nat) (m : mech) (s : R)
  (lo up : float64) :
  _epsilon m = Some PInf -> _sensitivity m = Some (Fin s) ->
  _lower_bound m = Some lo -> _upper_bound m = Some up ->
  LaplaceBoundedDomain__find_scale fuel m = (Ok (Fin 0), m).
Proof.
  intros He Hs Hlo Hup. rewrite find_scale_result, He, Hs, Hlo, Hup.
  cbv zeta. f_equal.
  assert (Hl : F.log (Fin 1 - Fin 0)%fl = Fin (ln (1 - 0))).
  { cbn. rewrite Rltb_true by lra. reflexivity. }
  assert (Hleft : (Fin s / (PInf - F.log (Fin 1 - Fin 0)))%fl = Fin 0).
  { rewrite Hl. reflexivity. }
  rewrite Hleft.
  assert (Hright : _f PInf (Fin 0) (Fin s) (up - lo)%fl (Fin 0) = Fin 0).
  { unfold _f, _delta_c. rewrite Hl. cbn [F.eqb].
    rewrite Reqb_true by reflexivity. cbn.
    rewrite Rltb_true by lra. reflexivity. }
  rewrite Hright.
  rewrite bisect_stop.
  - cbn. rewrite Reqb_false by lra. f_equal. f_equal. lra.
  - cbn. apply Rltb_false. lra.
Qed.

(** With epsilon [inf] the bounded-noise sampler derives the shape 0
    and the noise bound -1. *)
Lemma ensure_noise_bound_infinite_epsilon (m : mech) (s : R) :
  _epsilon m = Some PInf -> _sensitivity m = Some (Fin s) ->
  _shape m = None ->
  ensure_noise_bound m
  = (Ok tt, with_noise_bound (Fin (-1)) (with_shape (Fin 0) m)).
Proof.
  intros He Hs Hsh. unfold ensure_noise_bound.
  rewrite bind_get, Hsh.
  rewrite (bind_attr _ _ _ _ Hs), (bind_attr _ _ _ _ He).
  unfold pydiv. cbn [F.eqb F.div]. rewrite bind_ret, bind_get.
  unfold put at 1. unfold bind at 1.
  cbn [F.eqb]. rewrite Reqb_true by reflexivity. reflexivity.
Qed.

Lemma Rsign_pos (t : R) : 0 < t -> Rsign t = 1.
Proof. intros H. unfold Rsign. rewrite Rltb_true by lra. reflexivity. Qed.

Lemma Rsign_neg (t : R) : t < 0 -> Rsign t = -1.
Proof.
  intros H. unfold Rsign. rewrite Rltb_false by lra.
  rewrite Rltb_true by lra. reflexivity.
Qed.

Lemma Rsign_zero : Rsign 0 = 0.
Proof. unfold Rsign. rewrite !Rltb_false by lra. reflexivity. Qed.

(** The logarithm in the samplers at a shifted draw of magnitude 0.5 is
    [log(0)], which numpy evaluates to [-inf]. *)
Lemma log_of_extreme_draw (t : R) :
  Rabs t = 1/2 ->
  F.log (Fin 1 - Fin 2 * F.abs (Fin t))%fl = NInf.
Proof.
  intros Ht. cbn. rewrite Ht.
  rewrite Rltb_false by lra. rewrite Reqb_true by lra. reflexivity.
Qed.

Lemma Laplace_randomise_extreme_draw (m : mech) (s e v u : R) :
  cls m = CLaplace ->
  _sensitivity m = Some (Fin s) -> _epsilon m = Some (Fin e) ->
  0 < s -> 0 < e -> Rabs (u - 1/2) = 1/2 ->
  Laplace_randomise (VNum (Fin v)) (Fin u) m
  = (Ok (if Rltb u (1/2) then NInf else PInf), m).
Proof.
  intros Hc Hs He Hs0 He0 Hu.
  assert (Hq : 0 < s / e) by (apply Rdiv_lt_0_compat; lra).
  unfold Laplace_randomise.
  rewrite (bind_Ok _ _ _ _ _
             (self_check_inputs_complete (Fin v) m
                (complete_base m _ _ (or_introl Hc) He Hs))).
  rewrite (bind_attr _ _ _ _ Hs), (bind_attr _ _ _ _ He).
  unfold pydiv. cbn [F.eqb]. rewrite Reqb_false by lra.
  rewrite bind_ret. cbn [as_number]. rewrite bind_ret.
  change (Fin u - Fin (1/2))%fl with (Fin (u - 1/2)).
  rewrite log_of_extreme_draw by exact Hu.
  cbn [F.div]. rewrite Reqb_false by lra.
  unfold ret. f_equal. f_equal.
  destruct (Rlt_dec u (1/2)) as [Hlt | Hge].
  - rewrite (Rltb_true u) by lra. cbn. rewrite Rsign_neg by lra.
    unfold F.signed_inf. rewrite Rltb_true by lra. reflexivity.
  - assert (0 < u - 1/2).
    { destruct (Rle_lt_or_eq_dec (1/2) u) as [Hgt | Heq]; [lra | lra |].
      subst u. replace (1/2 - 1/2) with 0 in Hu by lra.
      rewrite Rabs_R0 in Hu. lra. }
    rewrite (Rltb_false u) by lra. cbn. rewrite Rsign_pos by lra.
    unfold F.signed_inf. rewrite Rltb_false by lra.
    rewrite Rltb_true by lra. reflexivity.
Qed.

(** C8.  With the scale 0 both distribution functions are the step at
    zero: 0 for a negative argument and 1 otherwise.  With the scale 0,
    whether cached or derived from an infinite epsilon, [randomise] of
    the bounded-domain and of the bounded-noise mechanism returns a
    value for every number and every draw and raises nothing.  On the
    base mechanism a draw with [|u - 0.5| = 0.5] makes the logarithm
    [log(0) = -inf], and [randomise] returns an infinity instead of
    raising. *)
Theorem C8_zero_scale_and_extreme_draw :
  (forall (m : mech) (x : float64),
      _scale m = Some (Fin 0) ->
      LaplaceBoundedDomain__cdf x m
      = (Ok (if F.ltb x (Fin 0) then Fin 0 else Fin 1), m))
  /\ (forall (m : mech) (x : float64),
         _shape m = Some (Fin 0) ->
         LaplaceBoundedNoise__cdf x m
         = (Ok (if F.ltb x (Fin 0) then Fin 0 else Fin 1), m))
  /\ (forall (fuel : nat) (m : mech) (x u : float64),
         cls m = CLaplaceBoundedDomain -> complete m = true ->
         _scale m = Some (Fin 0) ->
         exists r, LaplaceBoundedDomain_randomise fuel (VNum x) u m
                   = (Ok r, m))
  /\ (forall (fuel : nat) (m : mech) (s : R) (x u : float64),
         cls m = CLaplaceBoundedDomain -> complete m = true ->
         _epsilon m = Some PInf -> _sensitivity m = Some (Fin s) ->
         _scale m = None ->
         exists r, LaplaceBoundedDomain_randomise fuel (VNum x) u m
                   = (Ok r, with_scale (Fin 0) m))
  /\ (forall (m : mech) (nb x u : float64),
         cls m = CLaplaceBoundedNoise -> complete m = true ->
         _shape m = Some (Fin 0) -> _noise_bound m = Some nb ->
         exists r, LaplaceBoundedNoise_randomise (VNum x) u m = (Ok r, m))
  /\ (forall (m : mech) (s : R) (x u : float64),
         cls m = CLaplaceBoundedNoise -> complete m = true ->
         _epsilon m = Some PInf -> _sensitivity m = Some (Fin s) ->
         _shape m = None ->
         exists r,
           LaplaceBoundedNoise_randomise (VNum x) u m
           = (Ok r, with_noise_bound (Fin (-1)) (with_shape (Fin 0) m)))
  /\ F.log (Fin 0) = NInf
  /\ (forall (m : mech) (s e v u : R),
         cls m = CLaplace ->
         _sensitivity m = Some (Fin s) -> _epsilon m = Some (Fin e) ->
         0 < s -> 0 < e -> Rabs (u - 1/2) = 1/2 ->
         Laplace_randomise (VNum (Fin v)) (Fin u) m
         = (Ok (if Rltb u (1/2) then NInf else PInf), m)).
Proof.
  refine (conj _ (conj _ (conj _ (conj _ (conj _ (conj _ (conj _ _))))))).
  - intros m x H. rewrite (BoundedDomain_cdf_result m _ x H).
    unfold laplace_cdf. cbn [F.eqb]. rewrite Reqb_true by reflexivity.
    reflexivity.
  - intros m x H. rewrite (BoundedNoise_cdf_result m _ x H).
    unfold laplace_cdf. cbn [F.eqb]. rewrite Reqb_true by reflexivity.
    reflexivity.
  - intros fuel m x u Hc Hcomp Hb.
    assert (Hbd : exists lo up, _lower_bound m = Some lo
                                /\ _upper_bound m = Some up).
    { revert Hcomp. unfold complete. rewrite Hc.
      destruct (_lower_bound m), (_upper_bound m);
        rewrite ?andb_false_r; try discriminate; eauto. }
    destruct Hbd as (lo & up & Hlo & Hup).
    rewrite (BoundedDomain_randomise_cached fuel m _ lo up x u
               Hc Hcomp Hb Hlo Hup).
    eexists; reflexivity.
  - intros fuel m s x u Hc Hcomp He Hs Hsc.
    assert (Hbd : exists lo up, _lower_bound m = Some lo
                                /\ _upper_bound m = Some up).
    { revert Hcomp. unfold complete. rewrite Hc.
      destruct (_lower_bound m), (_upper_bound m);
        rewrite ?andb_false_r; try discriminate; eauto. }
    destruct Hbd as (lo & up & Hlo & Hup).
    pose proof (ensure_scale_solved fuel m (Fin 0) Hsc
                  (find_scale_infinite_epsilon fuel m s lo up He Hs Hlo Hup))
      as Hens.
    unfold LaplaceBoundedDomain_randomise.
    rewrite (bind_Ok _ _ _ _ _ (self_check_inputs_complete x m Hcomp)).
    rewrite (bind_Ok _ _ _ _ _ Hens).
    rewrite (bind_attr _ _ (with_scale (Fin 0) m) (Fin 0) eq_refl).
    rewrite (bind_attr _ _ (with_scale (Fin 0) m) lo Hlo).
    rewrite (bind_attr _ _ (with_scale (Fin 0) m) up Hup).
    cbn [as_number]. rewrite bind_ret. cbv zeta.
    repeat rewrite (bind_Ok _ _ _ _ _
             (BoundedDomain_cdf_result (with_scale (Fin 0) m) (Fin 0) _
                eq_refl)).
    eexists; reflexivity.
  - intros m nb x u Hc Hcomp Hsh Hnb.
    rewrite (BoundedNoise_randomise_cached m _ nb x u Hc Hcomp Hsh Hnb).
    eexists; reflexivity.
  - intros m s x u Hc Hcomp He Hs Hsh.
    unfold LaplaceBoundedNoise_randomise.
    rewrite (bind_Ok _ _ _ _ _ (self_check_inputs_complete x m Hcomp)).
    rewrite (bind_Ok _ _ _ _ _
               (ensure_noise_bound_infinite_epsilon m s He Hs Hsh)).
    set (m' := with_noise_bound (Fin (-1)) (with_shape (Fin 0) m)).
    rewrite (bind_attr _ _ m' (Fin 0) eq_refl).
    rewrite (bind_attr _ _ m' (Fin (-1)) eq_refl).
    cbn [as_number]. rewrite bind_ret. cbv zeta.
    repeat rewrite (bind_Ok _ _ _ _ _
             (BoundedNoise_cdf_result m' (Fin 0) _ eq_refl)).
    eexists; reflexivity.
  - cbn. rewrite Rltb_false by lra. rewrite Reqb_true by reflexivity.
    reflexivity.
  - exact Laplace_randomise_extreme_draw.
Qed.

(** A bounded-domain and a bounded-noise mechanism with epsilon [inf],
    and the base mechanism at the draw 0. *)
Lemma C8_witness :
  LaplaceBoundedDomain__cdf (Fin (-1))
    (with_scale (Fin 0)
       (bounded_cfg CLaplaceBoundedDomain PInf (Fin 0) (Fin 1) (Fin 0) (Fin 1)))
  = (Ok (Fin 0),
     with_scale (Fin 0)
       (bounded_cfg CLaplaceBoundedDomain PInf (Fin 0) (Fin 1) (Fin 0) (Fin 1)))
  /\ (exists r,
         LaplaceBoundedDomain_randomise 0 (VNum (Fin (1/2))) (Fin (1/4))
           (bounded_cfg CLaplaceBoundedDomain PInf (Fin 0) (Fin 1)
              (Fin 0) (Fin 1))
         = (Ok r,
            with_scale (Fin 0)
              (bounded_cfg CLaplaceBoundedDomain PInf (Fin 0) (Fin 1)
                 (Fin 0) (Fin 1))))
  /\ (exists r,
         LaplaceBoundedNoise_randomise (VNum (Fin (1/2))) (Fin (1/4))
           (laplace_cfg CLaplaceBoundedNoise PInf (Fin (1/4)) (Fin 1))
         = (Ok r,
            with_noise_bound (Fin (-1))
              (with_shape (Fin 0)
                 (laplace_cfg CLaplaceBoundedNoise PInf (Fin (1/4)) (Fin 1)))))
  /\ Laplace_randomise (VNum (Fin 5)) (Fin 0)
       (laplace_cfg CLaplace (Fin 1) (Fin 0) (Fin 1))
     = (Ok NInf, laplace_cfg CLaplace (Fin 1) (Fin 0) (Fin 1)).
Proof.
  destruct C8_zero_scale_and_extreme_draw
    as (H1 & _ & _ & H4 & _ & H6 & _ & H8).
  refine (conj _ (conj _ (conj _ _))).
  - rewrite H1 by reflexivity. cbn. rewrite Rltb_true by lra. reflexivity.
  - apply (H4 0%nat _ 1); reflexivity.
  - apply (H6 _ 1); reflexivity.
  - rewrite (H8 _ 1 1 5 0); try reflexivity; try lra.
    + rewrite Rltb_true by lra. reflexivity.
    + replace (0 - 1/2) with (-(1/2)) by lra.
      rewrite Rabs_Ropp. apply Rabs_right. lra.
Defined.

(** ** Inverting the distribution function *)

Lemma exp_neg_le_1 (z : R) : 0 <= z -> Rtrigo_def.exp (- z) <= 1.
Proof.
  intros [Hz | <-].
  - left. rewrite <- exp_0. apply exp_increasing. lra.
  - rewrite Ropp_0, exp_0. lra.
Qed.

Lemma exp_neg_lt_1 (z : R) : 0 < z -> Rtrigo_def.exp (- z) < 1.
Proof. intros Hz. rewrite <- exp_0. apply exp_increasing. lra. Qed.

(** The real content of both bounded samplers.  A draw [u] in [(0,1)]
    is mapped between the values [Fl] and [Fu] of the Laplace
    distribution function of scale [b] at [-a1] and at [a2]; the
    shifted draw [t] stays strictly inside [(-1/2, 1/2)], and the noise
    [- b * sign(t) * ln(1 - 2|t|)] lies in [[-a1, a2]]. *)
Lemma laplace_quantile_range (b a1 a2 u Fl Fu t : R) :
  0 < b -> 0 <= a1 -> 0 <= a2 -> 0 < a1 + a2 -> 0 < u < 1 ->
  Fl = 1/2 * Rtrigo_def.exp (- (a1 / b)) ->
  Fu = 1 - 1/2 * Rtrigo_def.exp (- (a2 / b)) ->
  t = u * (Fu - Fl) + Fl - 1/2 ->
  -(1/2) < t < 1/2
  /\ - a1 <= - (b * (Rsign t * ln (1 - 2 * Rabs t))) <= a2.
Proof.
  intros Hb Ha1 Ha2 Ha Hu HFl HFu Ht.
  set (r1 := a1 / b) in *. set (r2 := a2 / b) in *.
  assert (Hr1 : b * r1 = a1) by (unfold r1; field; lra).
  assert (Hr2 : b * r2 = a2) by (unfold r2; field; lra).
  assert (Hr1' : 0 <= r1) by (apply Rmult_le_reg_l with b; nra).
  assert (Hr2' : 0 <= r2) by (apply Rmult_le_reg_l with b; nra).
  assert (Hr : 0 < r1 \/ 0 < r2).
  { destruct Hr1' as [? | E1]; [left; assumption |].
    destruct Hr2' as [? | E2]; [right; assumption |]. nra. }
  pose proof (exp_pos (- r1)) as P1. pose proof (exp_pos (- r2)) as P2.
  pose proof (exp_neg_le_1 r1 Hr1') as L1.
  pose proof (exp_neg_le_1 r2 Hr2') as L2.
  set (E1 := Rtrigo_def.exp (- r1)) in *.
  set (E2 := Rtrigo_def.exp (- r2)) in *.
  assert (HD : 0 < 1 - E1 / 2 - E2 / 2).
  { destruct Hr as [H | H].
    - pose proof (exp_neg_lt_1 r1 H). fold E1 in H0. lra.
    - pose proof (exp_neg_lt_1 r2 H). fold E2 in H0. lra. }
  assert (Hlow : E1 / 2 - 1/2 < t) by (subst t Fl Fu; nra).
  assert (Hupp : t < 1/2 - E2 / 2) by (subst t Fl Fu; nra).
  split; [lra |].
  destruct (Rtotal_order t 0) as [Hneg | [Hz | Hpos]].
  - rewrite Rsign_neg by assumption. rewrite Rabs_left by assumption.
    assert (HX : E1 < 1 - 2 * - t) by lra.
    assert (Hln : - r1 < ln (1 - 2 * - t)).
    { rewrite <- (ln_exp (- r1)). apply ln_increasing; assumption. }
    assert (Hln0 : ln (1 - 2 * - t) < 0).
    { rewrite <- ln_1. apply ln_increasing; lra. }
    nra.
  - subst t. rewrite Hz, Rsign_zero. lra.
  - rewrite Rsign_pos by assumption. rewrite Rabs_right by lra.
    assert (HX : E2 < 1 - 2 * t) by lra.
    assert (Hln : - r2 < ln (1 - 2 * t)).
    { rewrite <- (ln_exp (- r2)). apply ln_increasing; assumption. }
    assert (Hln0 : ln (1 - 2 * t) < 0).
    { rewrite <- ln_1. apply ln_increasing; lra. }
    nra.
Qed.

(** ** The bounded-noise sampler *)

Lemma laplace_cdf_nonneg (b x : R) :
  0 < b -> 0 <= x ->
  laplace_cdf (Fin b) (Fin x) = Fin (1 - 1/2 * Rtrigo_def.exp (- (x / b))).
Proof.
  intros Hb Hx. unfold laplace_cdf. cbn.
  rewrite !Reqb_false by lra. rewrite Rltb_false by lra.
  replace (- x / b) with (- (x / b)) by (field; lra). reflexivity.
Qed.

Lemma laplace_cdf_nonpos (b x : R) :
  0 < b -> 0 <= x ->
  laplace_cdf (Fin b) (Fin (- x))
  = Fin (1/2 * Rtrigo_def.exp (- (x / b))).
Proof.
  intros Hb [Hx | <-]; unfold laplace_cdf; cbn [F.eqb F.ltb].
  - rewrite Reqb_false by lra. rewrite Rltb_true by lra.
    cbn [F.div]. rewrite Reqb_false by lra. cbn.
    replace (- x / b) with (- (x / b)) by (field; lra). reflexivity.
  - rewrite Reqb_false by lra. rewrite Rltb_false by lra.
    cbn [F.neg F.div]. rewrite Reqb_false by lra.
    cbn [F.exp F.mul F.sub F.add F.neg]. f_equal.
    replace (- - 0 / b) with 0 by (field; lra).
    replace (- (0 / b)) with 0 by (field; lra).
    rewrite exp_0. lra.
Qed.

Lemma laplace_cdf_finite (b x : R) :
  0 < b -> laplace_cdf (Fin b) (Fin x) = Fin (Rlaplace_cdf b x).
Proof.
  intros Hb. unfold laplace_cdf, Rlaplace_cdf. cbn [F.eqb F.ltb].
  rewrite Reqb_false by lra.
  destruct (Rltb x 0); cbn; rewrite Reqb_false by lra; reflexivity.
Qed.


(** The arithmetic of [LaplaceBoundedNoise.randomise] for a positive
    shape [q] and a positive noise bound [B], in exact arithmetic: the
    sample stays within [B] of the value.  Rounding is no part of it. *)
Lemma BoundedNoise_sample_in_range (q B v u : R) :
  0 < q -> 0 < B -> 0 < u < 1 ->
  exists r,
    (let t := (Fin u * (laplace_cdf (Fin q) (Fin B)
                        - laplace_cdf (Fin q) (- Fin B))
               + laplace_cdf (Fin q) (- Fin B) - Fin (1/2))%fl in
     (Fin v - Fin q * (F.sign t * F.log (Fin 1 - Fin 2 * F.abs t)))%fl)
    = Fin r
    /\ v - B <= r <= v + B.
Proof.
  intros Hq HB Hu. cbv zeta.
  change (- Fin B)%fl with (Fin (- B)).
  rewrite laplace_cdf_nonneg, laplace_cdf_nonpos by lra.
  match goal with
  | |- context [(Fin u * (Fin ?Fu - Fin ?Fl) + Fin ?Fl - Fin (1/2))%fl] =>
      change (Fin u * (Fin Fu - Fin Fl) + Fin Fl - Fin (1/2))%fl
        with (Fin (u * (Fu - Fl) + Fl - 1/2));
      set (t := u * (Fu - Fl) + Fl - 1/2);
      destruct (laplace_quantile_range q B B u Fl Fu t) as [Ht Hr];
      try reflexivity; try lra
  end.
  rewrite log_of_shifted_draw by exact Ht.
  eexists. split; [reflexivity |]. lra.
Qed.


Lemma BoundedNoise_randomise_after (m m' : mech) (sh nb x u : float64) :
  complete m = true ->
  ensure_noise_bound m = (Ok tt, m') ->
  _shape m' = Some sh -> _noise_bound m' = Some nb ->
  LaplaceBoundedNoise_randomise (VNum x) u m
  = (Ok (let t := (u * (laplace_cdf sh nb - laplace_cdf sh (- nb))
                   + laplace_cdf sh (- nb) - Fin (1/2))%fl in
         (x - sh * (F.sign t * F.log (Fin 1 - Fin 2 * F.abs t)))%fl),
     m').
Proof.
  intros Hcomp Hens Hsh Hnb. unfold LaplaceBoundedNoise_randomise.
  rewrite (bind_Ok _ _ _ _ _ (self_check_inputs_complete x m Hcomp)).
  rewrite (bind_Ok _ _ _ _ _ Hens).
  rewrite (bind_attr _ _ _ _ Hsh), (bind_attr _ _ _ _ Hnb).
  cbn [as_number]. rewrite bind_ret. cbv zeta.
  rewrite (bind_Ok _ _ _ _ _ (BoundedNoise_cdf_result m' sh _ Hsh)).
  rewrite (bind_Ok _ _ _ _ _ (BoundedNoise_cdf_result m' sh _ Hsh)).
  rewrite (bind_Ok _ _ _ _ _ (BoundedNoise_cdf_result m' sh _ Hsh)).
  reflexivity.
Qed.




(** ** The bounded-domain sampler *)

Lemma BoundedDomain_randomise_after (fuel : nat) (m m' : mech)
  (b lo up x u : float64) :
  complete m = true ->
  ensure_scale fuel m = (Ok tt, m') ->
  _scale m' = Some b ->
  _lower_bound m' = Some lo -> _upper_bound m' = Some up ->
  LaplaceBoundedDomain_randomise fuel (VNum x) u m
  = (Ok (let v := F.max (F.min x up) lo in
         let t := (u * (laplace_cdf b (up - v) - laplace_cdf b (lo - v))
                   + laplace_cdf b (lo - v) - Fin (1/2))%fl in
         (v - b * F.sign t * F.log (Fin 1 - Fin 2 * F.abs t))%fl),
     m').
Proof.
  intros Hcomp Hens Hb Hlo Hup. unfold LaplaceBoundedDomain_randomise.
  rewrite (bind_Ok _ _ _ _ _ (self_check_inputs_complete x m Hcomp)).
  rewrite (bind_Ok _ _ _ _ _ Hens).
  rewrite (bind_attr _ _ _ _ Hb), (bind_attr _ _ _ _ Hlo),
    (bind_attr _ _ _ _ Hup).
  cbn [as_number]. rewrite bind_ret. cbv zeta.
  rewrite (bind_Ok _ _ _ _ _ (BoundedDomain_cdf_result m' b _ Hb)).
  rewrite (bind_Ok _ _ _ _ _ (BoundedDomain_cdf_result m' b _ Hb)).
  rewrite (bind_Ok _ _ _ _ _ (BoundedDomain_cdf_result m' b _ Hb)).
  reflexivity.
Qed.

(** [min(value, upper)] then [max(value, lower)] clamps a real value
    into the domain and leaves a value of the domain as it is. *)
Lemma clamp_into_domain (lo up x : R) :
  lo < up ->
  exists c, F.max (F.min (Fin x) (Fin up)) (Fin lo) = Fin c
            /\ lo <= c <= up
            /\ (lo <= x <= up -> c = x).
Proof.
  intros Hlu. unfold F.max, F.min, F.gtb. cbn [F.ltb].
  destruct (Rlt_dec up x) as [H1 | H1].
  - rewrite (Rltb_true up x) by lra. cbn [F.ltb].
    rewrite Rltb_false by lra. exists up. repeat split; lra.
  - rewrite (Rltb_false up x) by lra. cbn [F.ltb].
    destruct (Rlt_dec x lo) as [H2 | H2].
    + rewrite Rltb_true by lra. exists lo. repeat split; lra.
    + rewrite Rltb_false by lra. exists x. repeat split; lra.
Qed.

(** The arithmetic of [LaplaceBoundedDomain.randomise] for a positive
    finite scale: whatever the real value, the result lies in the
    domain. *)
Lemma BoundedDomain_sample_in_range (b lo up x u : R) :
  0 < b -> lo < up -> 0 < u < 1 ->
  exists r,
    (let v := F.max (F.min (Fin x) (Fin up)) (Fin lo) in
     let t := (Fin u * (laplace_cdf (Fin b) (Fin up - v)
                        - laplace_cdf (Fin b) (Fin lo - v))
               + laplace_cdf (Fin b) (Fin lo - v) - Fin (1/2))%fl in
     (v - Fin b * F.sign t * F.log (Fin 1 - Fin 2 * F.abs t))%fl)
    = Fin r
    /\ lo <= r <= up.
Proof.
  intros Hb Hlu Hu. cbv zeta.
  destruct (clamp_into_domain lo up x Hlu) as (c & -> & Hc & _).
  change (Fin up - Fin c)%fl with (Fin (up - c)).
  replace (Fin lo - Fin c)%fl with (Fin (- (c - lo)))
    by (cbn; f_equal; lra).
  rewrite laplace_cdf_nonneg, laplace_cdf_nonpos by lra.
  match goal with
  | |- context [(Fin u * (Fin ?Fu - Fin ?Fl) + Fin ?Fl - Fin (1/2))%fl] =>
      change (Fin u * (Fin Fu - Fin Fl) + Fin Fl - Fin (1/2))%fl
        with (Fin (u * (Fu - Fl) + Fl - 1/2));
      set (t := u * (Fu - Fl) + Fl - 1/2);
      destruct (laplace_quantile_range b (c - lo) (up - c) u Fl Fu t)
        as [Ht Hr];
      try reflexivity; try lra
  end.
  rewrite log_of_shifted_draw by exact Ht.
  eexists. split; [reflexivity |]. lra.
Qed.

(** On a complete bounded-domain mechanism whose scale, cached or just
    solved, is finite and positive, [randomise] of any real value and
    any draw in [(0,1)] returns a point of the domain. *)
Lemma BoundedDomain_randomise_in_range (fuel : nat) (m m' : mech)
  (b lo up x u : R) :
  complete m = true ->
  ensure_scale fuel m = (Ok tt, m') ->
  _scale m' = Some (Fin b) ->
  _lower_bound m' = Some (Fin lo) -> _upper_bound m' = Some (Fin up) ->
  0 < b -> lo < up -> 0 < u < 1 ->
  exists r,
    LaplaceBoundedDomain_randomise fuel (VNum (Fin x)) (Fin u) m
    = (Ok (Fin r), m')
    /\ lo <= r <= up.
Proof.
  intros Hcomp Hens Hsc Hlo Hup Hb Hlu Hu.
  destruct (BoundedDomain_sample_in_range b lo up x u Hb Hlu Hu)
    as (r & Hr & Hrange).
  exists r. split; [| exact Hrange].
  rewrite (BoundedDomain_randomise_after fuel m m' (Fin b) (Fin lo) (Fin up)
             (Fin x) (Fin u) Hcomp Hens Hsc Hlo Hup).
  f_equal. f_equal. exact Hr.
Qed.

Lemma complete_bounded (m : mech) (e s lo up : float64) :
  _epsilon m = Some e -> _sensitivity m = Some s ->
  _lower_bound m = Some lo -> _upper_bound m = Some up ->
  complete m = true.
Proof.
  intros He Hs Hlo Hup. unfold complete. rewrite He, Hs, Hlo, Hup.
  destruct (cls m); reflexivity.
Qed.

Lemma laplace_cdf_step (x : R) :
  laplace_cdf (Fin 0) (Fin x) = if Rltb x 0 then Fin 0 else Fin 1.
Proof.
  unfold laplace_cdf. cbn [F.eqb F.ltb].
  rewrite Reqb_true by reflexivity. reflexivity.
Qed.

(** C4 at its failing input.  On a bounded-domain mechanism with
    epsilon [inf] the solved scale is 0, and [randomise] of the lower
    bound itself returns [nan] for every draw: both values of the step
    function are 1, the shifted draw is 0.5, and the result is
    [lower - 0 * log(0)].  [nan] is not in the domain. *)
Theorem C4_infinite_epsilon_at_lower_bound (fuel : nat) (m : mech)
  (s lo up u : R) :
  _epsilon m = Some PInf -> _sensitivity m = Some (Fin s) ->
  _lower_bound m = Some (Fin lo) -> _upper_bound m = Some (Fin up) ->
  _scale m = None ->
  lo < up ->
  LaplaceBoundedDomain_randomise fuel (VNum (Fin lo)) (Fin u) m
  = (Ok NaN, with_scale (Fin 0) m)
  /\ within (Fin lo) (Fin up) NaN = false.
Proof.
  intros He Hs Hlo Hup Hsc Hlu. split; [| reflexivity].
  rewrite (BoundedDomain_randomise_after fuel m (with_scale (Fin 0) m)
             (Fin 0) (Fin lo) (Fin up) (Fin lo) (Fin u)
             (complete_bounded m _ _ _ _ He Hs Hlo Hup)
             (ensure_scale_solved fuel m (Fin 0) Hsc
                (find_scale_infinite_epsilon fuel m s _ _ He Hs Hlo Hup))
             eq_refl Hlo Hup).
  f_equal. cbv zeta.
  destruct (clamp_into_domain lo up lo Hlu) as (c & -> & _ & Hc).
  rewrite Hc by lra.
  change (Fin up - Fin lo)%fl with (Fin (up - lo)).
  change (Fin lo - Fin lo)%fl with (Fin (lo - lo)).
  rewrite !laplace_cdf_step. rewrite !Rltb_false by lra.
  change (Fin u * (Fin 1 - Fin 1) + Fin 1 - Fin (1/2))%fl
    with (Fin (u * (1 - 1) + 1 - 1/2)).
  assert (Ht : u * (1 - 1) + 1 - 1/2 = 1/2) by lra.
  rewrite Ht.
  rewrite log_of_extreme_draw by (apply Rabs_right; lra).
  cbn. unfold F.signed_inf. rewrite !Rltb_false by lra. reflexivity.
Qed.

(** Sensitivity 1 on the domain [[0, 1]] with epsilon [inf]: the value
    0 and the draw 0.5. *)
Lemma C4_witness :
  LaplaceBoundedDomain_randomise 0 (VNum (Fin 0)) (Fin (1/2))
    (bounded_cfg CLaplaceBoundedDomain PInf (Fin 0) (Fin 1) (Fin 0) (Fin 1))
  = (Ok NaN,
     with_scale (Fin 0)
       (bounded_cfg CLaplaceBoundedDomain PInf (Fin 0) (Fin 1)
          (Fin 0) (Fin 1)))
  /\ within (Fin 0) (Fin 1) NaN = false.
Proof.
  apply (C4_infinite_epsilon_at_lower_bound 0
           (bounded_cfg CLaplaceBoundedDomain PInf (Fin 0) (Fin 1)
              (Fin 0) (Fin 1))
           1 0 1 (1/2));
    try reflexivity; lra.
Defined.

(** ** The bias of the bounded-domain mechanism *)

Lemma conditional_mass_pos (b lo up v : R) :
  0 < b -> lo < up -> lo <= v <= up ->
  0 < 1 - Rtrigo_def.exp ((lo - v) / b) / 2
        - Rtrigo_def.exp ((v - up) / b) / 2.
Proof.
  intros Hb Hlu Hv.
  replace ((lo - v) / b) with (- ((v - lo) / b)) by (field; lra).
  replace ((v - up) / b) with (- ((up - v) / b)) by (field; lra).
  assert (H1 : 0 <= (v - lo) / b).
  { apply Rmult_le_reg_l with b; [lra |].
    replace (b * ((v - lo) / b)) with (v - lo) by (field; lra). lra. }
  assert (H2 : 0 <= (up - v) / b).
  { apply Rmult_le_reg_l with b; [lra |].
    replace (b * ((up - v) / b)) with (up - v) by (field; lra). lra. }
  pose proof (exp_neg_le_1 _ H1) as L1.
  pose proof (exp_neg_le_1 _ H2) as L2.
  destruct (Rle_lt_dec v lo) as [Hle | Hgt].
  - assert (H3 : 0 < (up - v) / b) by (apply Rdiv_lt_0_compat; lra).
    pose proof (exp_neg_lt_1 _ H3). lra.
  - assert (H3 : 0 < (v - lo) / b) by (apply Rdiv_lt_0_compat; lra).
    pose proof (exp_neg_lt_1 _ H3). lra.
Qed.

Lemma BoundedDomain_get_bias_after (fuel : nat) (m m' : mech)
  (b lo up x : float64) :
  complete m = true ->
  ensure_scale fuel m = (Ok tt, m') ->
  _scale m' = Some b ->
  _lower_bound m' = Some lo -> _upper_bound m' = Some up ->
  LaplaceBoundedDomain_get_bias fuel (VNum x) m
  = (Ok (((b - lo + x) / Fin 2 * F.exp ((lo - x) / b)
          - (b + up - x) / Fin 2 * F.exp ((x - up) / b))
         / (Fin 1 - F.exp ((lo - x) / b) / Fin 2
                  - F.exp ((x - up) / b) / Fin 2))%fl,
     m').
Proof.
  intros Hcomp Hens Hb Hlo Hup. unfold LaplaceBoundedDomain_get_bias.
  rewrite (bind_Ok _ _ _ _ _ (self_check_inputs_complete x m Hcomp)).
  rewrite (bind_Ok _ _ _ _ _ Hens).
  rewrite (bind_attr _ _ _ _ Hb), (bind_attr _ _ _ _ Hlo),
    (bind_attr _ _ _ _ Hup).
  reflexivity.
Qed.

(** C3, as the code has it.  On a complete bounded-domain mechanism
    whose scale [b], cached or just solved, is finite and positive, and
    for a value [v] of the domain, [get_bias] returns
    [((b - lower + v)/2 * exp((lower - v)/b)
      - (b + upper - v)/2 * exp((v - upper)/b))]
    over the conditional mass
    [1 - exp((lower - v)/b)/2 - exp((v - upper)/b)/2]. *)
Theorem C3_bounded_domain_bias (fuel : nat) (m m' : mech) (b lo up v : R) :
  complete m = true ->
  ensure_scale fuel m = (Ok tt, m') ->
  _scale m' = Some (Fin b) ->
  _lower_bound m' = Some (Fin lo) -> _upper_bound m' = Some (Fin up) ->
  0 < b -> lo < up -> lo <= v <= up ->
  LaplaceBoundedDomain_get_bias fuel (VNum (Fin v)) m
  = (Ok (Fin (code_bounded_domain_bias b lo up v)), m').
Proof.
  intros Hcomp Hens Hsc Hlo Hup Hb Hlu Hv.
  rewrite (BoundedDomain_get_bias_after fuel m m' (Fin b) (Fin lo) (Fin up)
             (Fin v) Hcomp Hens Hsc Hlo Hup).
  pose proof (conditional_mass_pos b lo up v Hb Hlu Hv) as Hmass.
  f_equal. f_equal. unfold code_bounded_domain_bias.
  cbn. rewrite !Reqb_false by lra. cbn. rewrite !Reqb_false by lra.
  cbn. rewrite Reqb_false by (unfold Rminus in Hmass; lra).
  reflexivity.
Qed.

(** ** The solver when the sensitivity is the diameter *)

Lemma log_one_minus_zero : F.log (Fin 1 - Fin 0)%fl = Fin 0.
Proof.
  cbn. rewrite Rltb_true by lra. f_equal.
  replace (1 + - 0) with 1 by lra. apply ln_1.
Qed.

(** When the sensitivity equals the diameter of the domain,
    [_delta_c] is 1 at every positive scale. *)
Lemma delta_c_full_diameter (s b : R) :
  0 < s -> 0 < b ->
  _delta_c (Fin s) (Fin s) (Fin b) = Fin 1.
Proof.
  intros Hs Hb. unfold _delta_c. cbn [F.eqb].
  rewrite Reqb_false by lra.
  assert (Hlt : Rtrigo_def.exp (- s / b) < 1).
  { replace (- s / b) with (- (s / b)) by (field; lra).
    apply exp_neg_lt_1. apply Rdiv_lt_0_compat; lra. }
  cbn. rewrite !Reqb_false by lra. cbn.
  replace (- (s + - s) / b) with 0 by (field; lra).
  rewrite exp_0.
  rewrite Reqb_false by lra. f_equal. field. lra.
Qed.

(** Then the solver returns [sensitivity / epsilon] without entering
    its loop. *)
Lemma find_scale_full_diameter (fuel : nat) (m : mech) (e s lo up : R) :
  _epsilon m = Some (Fin e) -> _sensitivity m = Some (Fin s) ->
  _lower_bound m = Some (Fin lo) -> _upper_bound m = Some (Fin up) ->
  0 < e -> 0 < s -> up - lo = s ->
  LaplaceBoundedDomain__find_scale fuel m = (Ok (Fin (s / e)), m).
Proof.
  intros He Hs Hlo Hup He0 Hs0 Hd.
  assert (Hq : 0 < s / e) by (apply Rdiv_lt_0_compat; lra).
  rewrite find_scale_result, He, Hs, Hlo, Hup. cbv zeta. f_equal.
  rewrite log_one_minus_zero.
  change (Fin up - Fin lo)%fl with (Fin (up - lo)). rewrite Hd.
  assert (Hleft : (Fin s / (Fin e - Fin 0))%fl = Fin (s / e)).
  { cbn. rewrite Reqb_false by lra. f_equal. f_equal. lra. }
  rewrite Hleft.
  assert (Hright : _f (Fin e) (Fin 0) (Fin s) (Fin s) (Fin (s / e))
                   = Fin (s / e)).
  { unfold _f. rewrite delta_c_full_diameter by lra.
    rewrite log_one_minus_zero.
    assert (Hl1 : F.log (Fin 1) = Fin 0).
    { cbn. rewrite Rltb_true by lra. f_equal. apply ln_1. }
    rewrite Hl1. cbn. rewrite Reqb_false by lra. f_equal. f_equal. lra. }
  rewrite Hright.
  rewrite bisect_stop.
  - cbn. rewrite Reqb_false by lra. f_equal. f_equal. lra.
  - cbn. apply Rltb_false. lra.
Qed.

(** Sensitivity 1 and epsilon 1 on the domain [[0, 1]]: the scale is
    1. *)
Lemma unit_domain_ensure_scale (fuel : nat) (d : float64) :
  ensure_scale fuel
    (bounded_cfg CLaplaceBoundedDomain (Fin 1) d (Fin 1) (Fin 0) (Fin 1))
  = (Ok tt,
     with_scale (Fin 1)
       (bounded_cfg CLaplaceBoundedDomain (Fin 1) d (Fin 1) (Fin 0) (Fin 1))).
Proof.
  apply ensure_scale_solved; [reflexivity |].
  rewrite (find_scale_full_diameter fuel _ 1 1 0 1);
    try reflexivity; try lra.
  f_equal. f_equal. f_equal. lra.
Qed.

(** The value 0 on that mechanism. *)
Lemma C3_witness :
  LaplaceBoundedDomain_get_bias 0 (VNum (Fin 0))
    (bounded_cfg CLaplaceBoundedDomain (Fin 1) (Fin 0) (Fin 1) (Fin 0) (Fin 1))
  = (Ok (Fin (code_bounded_domain_bias 1 0 1 0)),
     with_scale (Fin 1)
       (bounded_cfg CLaplaceBoundedDomain (Fin 1) (Fin 0) (Fin 1)
          (Fin 0) (Fin 1))).
Proof.
  apply (C3_bounded_domain_bias 0
           (bounded_cfg CLaplaceBoundedDomain (Fin 1) (Fin 0) (Fin 1)
              (Fin 0) (Fin 1))
           _ 1 0 1 0);
    try reflexivity; try lra.
  apply unit_domain_ensure_scale.
Defined.

(** C3 fails as stated: with sensitivity 1 and epsilon 1 on [[0, 1]]
    the scale is 1, and at the value 0 [get_bias] returns
    [(1/2 - exp(-1))] over the conditional mass, where the formula of
    the claim gives [(1/2 - exp(-1)/2)] over it. *)
Lemma C3_counterexample :
  exists r,
    LaplaceBoundedDomain_get_bias 0 (VNum (Fin 0))
      (bounded_cfg CLaplaceBoundedDomain (Fin 1) (Fin 0) (Fin 1)
         (Fin 0) (Fin 1))
    = (Ok (Fin r),
       with_scale (Fin 1)
         (bounded_cfg CLaplaceBoundedDomain (Fin 1) (Fin 0) (Fin 1)
            (Fin 0) (Fin 1)))
    /\ r <> spec_bounded_domain_bias 1 0 1 0.
Proof.
  pose proof (conditional_mass_pos 1 0 1 0 ltac:(lra) ltac:(lra)
                ltac:(lra)) as Hmass.
  exists (code_bounded_domain_bias 1 0 1 0). split.
  - rewrite (BoundedDomain_get_bias_after 0
               (bounded_cfg CLaplaceBoundedDomain (Fin 1) (Fin 0) (Fin 1)
                  (Fin 0) (Fin 1))
               _ (Fin 1) (Fin 0) (Fin 1)
               (Fin 0) eq_refl (unit_domain_ensure_scale 0 (Fin 0))
               eq_refl eq_refl eq_refl).
    f_equal. f_equal. unfold code_bounded_domain_bias.
    cbn. rewrite !Reqb_false by lra. cbn. rewrite !Reqb_false by lra.
    cbn. rewrite Reqb_false by (unfold Rminus in Hmass; lra).
    reflexivity.
  - unfold code_bounded_domain_bias, spec_bounded_domain_bias.
    replace ((0 - 0) / 1) with 0 in * by lra.
    replace ((0 - 1) / 1) with (- 1) in * by lra.
    rewrite exp_0 in *.
    pose proof (exp_pos (- 1)) as Hpos.
    set (E := Rtrigo_def.exp (- 1)) in *.
    intros Heq.
    assert (Hne : 1 - 1 / 2 - E / 2 <> 0) by lra.
    replace (1 - 1 / 2 * 1 - 1 / 2 * E) with (1 - 1 / 2 - E / 2)
      in Heq by lra.
    apply (Rmult_eq_reg_r (/ (1 - 1 / 2 - E / 2))) in Heq;
      [lra | apply Rinv_neq_0_compat; exact Hne].
Qed.

(** ** The solver when the sensitivity exceeds the diameter *)

Lemma sub_NaN_r (x : float64) : (x - NaN)%fl = NaN.
Proof. destruct x; reflexivity. Qed.

(** With sensitivity 2 on a domain of diameter 1, [_delta_c] is
    negative at the scale 1: its numerator is [2 - exp(-2) - exp(1)]. *)
Lemma delta_c_negative :
  exists q, _delta_c (Fin 2) (Fin 1 - Fin 0)%fl (Fin 1) = Fin q /\ q < 0.
Proof.
  unfold _delta_c. cbn [F.eqb]. rewrite Reqb_false by lra.
  assert (H1 : Rtrigo_def.exp (- (1 + - 0) / 1) < 1).
  { replace (- (1 + - 0) / 1) with (Ropp 1) by lra.
    apply exp_neg_lt_1. lra. }
  assert (H2 : 2 < Rtrigo_def.exp (- (1 + - 0 + Ropp 2) / 1)).
  { replace (- (1 + - 0 + Ropp 2) / 1) with 1 by lra.
    pose proof (exp_ineq1 1). lra. }
  pose proof (exp_pos (Ropp 2 / 1)) as H3.
  cbn. rewrite ?Reqb_false by lra. cbn. rewrite ?Reqb_false by lra.
  cbn. rewrite ?Reqb_false by lra.
  eexists. split; [reflexivity |].
  apply Rmult_lt_reg_r with (1 + - Rtrigo_def.exp (- (1 + - 0) / 1));
    [lra |].
  unfold Rdiv at 1. rewrite Rmult_assoc, Rinv_l by lra. lra.
Qed.

(** C2 at its failing input.  With lower 0, upper 1, sensitivity 2 and
    epsilon 2 the solver starts at the scale 1, where [_delta_c] is
    negative and its logarithm is [nan]; the loop is not entered and
    [_find_scale] returns [nan].  [get_effective_epsilon] is then
    [nan], and [nan] is within no tolerance of a fixed point. *)
Theorem C2_sensitivity_above_diameter (fuel : nat) :
  let m := bounded_cfg CLaplaceBoundedDomain (Fin 2) (Fin 0) (Fin 2)
             (Fin 0) (Fin 1) in
  LaplaceBoundedDomain__find_scale fuel m = (Ok NaN, m)
  /\ LaplaceBoundedDomain_get_effective_epsilon fuel m
     = (Ok NaN, with_scale NaN m)
  /\ F.leb (F.abs (_f (Fin 2) (Fin 0) (Fin 2) (Fin 1 - Fin 0)%fl NaN - NaN)%fl)
       (Fin (1 / 1000000000))
     = false.
Proof.
  intros m.
  assert (Hfind : LaplaceBoundedDomain__find_scale fuel m = (Ok NaN, m)).
  { rewrite find_scale_result. cbv zeta. cbn [_epsilon _upper_bound
      _lower_bound _sensitivity m bounded_cfg]. f_equal.
    rewrite log_one_minus_zero.
    assert (Hleft : (Fin 2 / (Fin 2 - Fin 0))%fl = Fin 1).
    { cbn. rewrite Reqb_false by lra. f_equal.
      replace (2 + - 0) with 2 by lra. lra. }
    rewrite Hleft.
    assert (Hright : _f (Fin 2) (Fin 0) (Fin 2) (Fin 1 - Fin 0)%fl (Fin 1)
                     = NaN).
    { unfold _f. destruct delta_c_negative as (q & -> & Hq).
      cbn [F.log]. rewrite Rltb_false, Reqb_false by lra. reflexivity. }
    rewrite Hright. rewrite bisect_stop; reflexivity. }
  split; [exact Hfind |]. split.
  - unfold LaplaceBoundedDomain_get_effective_epsilon.
    rewrite (bind_Ok _ _ _ _ _ (ensure_scale_solved fuel m NaN eq_refl Hfind)).
    reflexivity.
  - rewrite sub_NaN_r. reflexivity.
Qed.

(** ** The objects of the examples, as the setters build them *)

(** [LaplaceBoundedDomain().set_sensitivity(1).set_bounds(0, 1)
    .set_epsilon_delta(inf, 0)] *)
Lemma bounded_domain_infinite_epsilon_built :
  (Laplace_set_sensitivity (VNum (Fin 1)) ;;;
   TruncationAndFoldingMachine.set_bounds (VNum (Fin 0)) (VNum (Fin 1)) ;;;
   DPMechanism.set_epsilon_delta (VNum PInf) (VNum (Fin 0)))
    (init CLaplaceBoundedDomain)
  = (Ok (bounded_cfg CLaplaceBoundedDomain PInf (Fin 0) (Fin 1)
           (Fin 0) (Fin 1)),
     bounded_cfg CLaplaceBoundedDomain PInf (Fin 0) (Fin 1) (Fin 0) (Fin 1)).
Proof.
  unfold Laplace_set_sensitivity, TruncationAndFoldingMachine.set_bounds,
    DPMechanism.set_epsilon_delta.
  cbn [F.leb F.ltb F.gtb].
  rewrite Rleb_false by lra. rewrite Rltb_true by lra. reflexivity.
Qed.

(** [LaplaceBoundedDomain().set_sensitivity(2).set_bounds(0, 1)
    .set_epsilon_delta(2, 0)] *)
Lemma bounded_domain_wide_sensitivity_built :
  (Laplace_set_sensitivity (VNum (Fin 2)) ;;;
   TruncationAndFoldingMachine.set_bounds (VNum (Fin 0)) (VNum (Fin 1)) ;;;
   DPMechanism.set_epsilon_delta (VNum (Fin 2)) (VNum (Fin 0)))
    (init CLaplaceBoundedDomain)
  = (Ok (bounded_cfg CLaplaceBoundedDomain (Fin 2) (Fin 0) (Fin 2)
           (Fin 0) (Fin 1)),
     bounded_cfg CLaplaceBoundedDomain (Fin 2) (Fin 0) (Fin 2) (Fin 0) (Fin 1)).
Proof.
  unfold Laplace_set_sensitivity, TruncationAndFoldingMachine.set_bounds,
    DPMechanism.set_epsilon_delta.
  cbn [F.leb F.ltb F.gtb].
  rewrite Rleb_false by lra. rewrite !Rltb_true by lra. reflexivity.
Qed.

(** [LaplaceBoundedNoise().set_sensitivity(1)
    .set_epsilon_delta(inf, 0.25)] *)
Lemma bounded_noise_infinite_epsilon_built :
  (Laplace_set_sensitivity (VNum (Fin 1)) ;;;
   LaplaceBoundedNoise_set_epsilon_delta (VNum PInf) (VNum (Fin (1/4))))
    (init CLaplaceBoundedNoise)
  = (Ok (laplace_cfg CLaplaceBoundedNoise PInf (Fin (1/4)) (Fin 1)),
     laplace_cfg CLaplaceBoundedNoise PInf (Fin (1/4)) (Fin 1)).
Proof.
  unfold Laplace_set_sensitivity, LaplaceBoundedNoise_set_epsilon_delta,
    DPMechanism.set_epsilon_delta.
  cbn [F.leb F.ltb F.gtb F.eqb].
  rewrite Rleb_false by lra. rewrite !Rltb_true by lra. reflexivity.
Qed.

(** * Further properties of the module *)

(** ** Powers of Python floats *)

Lemma max_double_bounds : 2 ^ 1000 <= max_double < 2 ^ 1024.
Proof.
  unfold max_double.
  assert (H52 : 1 <= 2 ^ 52) by (apply pow_R1_Rle; lra).
  assert (Hi : 0 < / 2 ^ 52 <= 1).
  { split; [apply Rinv_0_lt_compat; lra |].
    rewrite <- Rinv_1. apply Rinv_le_contravar; lra. }
  assert (Hp : 0 < 2 ^ 1023) by (apply pow_lt; lra).
  assert (Hle : 2 ^ 1000 <= 2 ^ 1023).
  { apply Rle_pow; [lra |]. apply Nat.leb_le. reflexivity. }
  change (2 ^ 1024) with (2 * 2 ^ 1023).
  split; nra.
Qed.

Lemma square_by_Rabs (a : R) : a * a = Rabs a * Rabs a.
Proof. unfold Rabs. destruct (Rcase_abs a); ring. Qed.

(** A square that is far from the largest double. *)
Lemma pypow2_finite (a : R) (m : mech) :
  Rabs a <= 2 ^ 500 -> pypow2 (Fin a) m = (Ok (Fin (a * a)), m).
Proof.
  intros H. unfold pypow2.
  rewrite Rltb_false; [reflexivity |].
  pose proof (Rabs_pos a) as H0.
  assert (Hsq : a * a <= 2 ^ 500 * 2 ^ 500).
  { rewrite (square_by_Rabs a). apply Rmult_le_compat; assumption. }
  rewrite <- pow_add in Hsq. change (500 + 500)%nat with 1000%nat in Hsq.
  pose proof max_double_bounds. lra.
Qed.

(** A square that is far beyond the largest double. *)
Lemma pypow2_overflow (a : R) (m : mech) :
  2 ^ 520 <= Rabs a ->
  exists msg, pypow2 (Fin a) m = (Raise (OverflowError msg), m).
Proof.
  intros H. unfold pypow2.
  rewrite Rltb_true; [eexists; reflexivity |].
  assert (Hp : 0 < 2 ^ 520) by (apply pow_lt; lra).
  assert (Hsq : 2 ^ 520 * 2 ^ 520 <= a * a).
  { rewrite (square_by_Rabs a).
    apply Rmult_le_compat; try assumption; left; exact Hp. }
  rewrite <- pow_add in Hsq. change (520 + 520)%nat with 1040%nat in Hsq.
  assert (Hle : 2 ^ 1024 <= 2 ^ 1040).
  { apply Rle_pow; [lra |]. apply Nat.leb_le. reflexivity. }
  pose proof max_double_bounds. lra.
Qed.

(** ** The base mechanism *)

Lemma Laplace_randomise_finite (m : mech) (s e v u : R) :
  cls m = CLaplace ->
  _sensitivity m = Some (Fin s) -> _epsilon m = Some (Fin e) ->
  0 < e -> -(1/2) < u - 1/2 < 1/2 ->
  Laplace_randomise (VNum (Fin v)) (Fin u) m
  = (Ok (Fin (v - s / e * Rsign (u - 1/2) * ln (1 - 2 * Rabs (u - 1/2)))),
     m).
Proof.
  intros Hc Hs He He0 Hu.
  unfold Laplace_randomise.
  rewrite (bind_Ok _ _ _ _ _
             (self_check_inputs_complete (Fin v) m
                (complete_base m _ _ (or_introl Hc) He Hs))).
  rewrite (bind_attr _ _ _ _ Hs), (bind_attr _ _ _ _ He).
  unfold pydiv. cbn [F.eqb]. rewrite Reqb_false by lra.
  rewrite bind_ret. cbn [as_number]. rewrite bind_ret.
  change (Fin u - Fin (1/2))%fl with (Fin (u - 1/2)).
  rewrite log_of_shifted_draw by lra.
  cbn. rewrite Reqb_false by lra. reflexivity.
Qed.

(** X1.  [Laplace.get_variance] checks the object with the value 0 and
    not with its argument: on a base mechanism with finite sensitivity
    [s] and epsilon [e > 0] whose quotient [s/e] is at most [2^500] in
    magnitude, where the square is far from overflowing, it returns
    [2 * (s/e)^2] for every argument, a string or [None] included, and
    leaves the object as it is. *)
Theorem X1_get_variance_ignores_value (m : mech) (s e : R) (value : pyval) :
  cls m = CLaplace ->
  _sensitivity m = Some (Fin s) -> _epsilon m = Some (Fin e) ->
  0 < e -> Rabs (s / e) <= 2 ^ 500 ->
  Laplace_get_variance value m = (Ok (Fin (2 * (s / e * (s / e)))), m).
Proof.
  intros Hc Hs He He0 Hq. unfold Laplace_get_variance.
  rewrite (bind_Ok _ _ _ _ _
             (self_check_inputs_complete (Fin 0) m
                (complete_base m _ _ (or_introl Hc) He Hs))).
  rewrite (bind_attr _ _ _ _ Hs), (bind_attr _ _ _ _ He).
  unfold pydiv. cbn [F.eqb F.div]. rewrite !Reqb_false by lra.
  rewrite bind_ret.
  rewrite (bind_Ok _ _ _ _ _ (pypow2_finite (s / e) m Hq)).
  reflexivity.
Qed.

Lemma X1_witness :
  Laplace_get_variance (VStr "a")
    (laplace_cfg CLaplace (Fin 1) (Fin 0) (Fin 1))
  = (Ok (Fin (2 * (1 / 1 * (1 / 1)))),
     laplace_cfg CLaplace (Fin 1) (Fin 0) (Fin 1)).
Proof.
  apply (X1_get_variance_ignores_value
           (laplace_cfg CLaplace (Fin 1) (Fin 0) (Fin 1)) 1 1 (VStr "a"));
    try reflexivity; try lra.
  replace (1 / 1) with 1 by lra. rewrite Rabs_R1.
  apply pow_R1_Rle. lra.
Defined.

(** X2.  The noise of the base sampler follows the draw: on a base
    mechanism with finite sensitivity [s > 0] and epsilon [e > 0], with
    [s/e] and the value at most [2^1000] in magnitude, where nothing
    overflows, [randomise] returns a number that is at most the value
    for a draw in [(0, 0.5]] and at least the value for a draw in
    [[0.5, 1)]: the draw 0.5 returns the value itself. *)
Theorem X2_randomise_centred (m : mech) (s e v u : R) :
  cls m = CLaplace ->
  _sensitivity m = Some (Fin s) -> _epsilon m = Some (Fin e) ->
  0 < s -> 0 < e -> s / e <= 2 ^ 1000 -> Rabs v <= 2 ^ 1000 ->
  0 < u < 1 ->
  exists r,
    Laplace_randomise (VNum (Fin v)) (Fin u) m = (Ok (Fin r), m)
    /\ (u <= 1/2 -> r <= v)
    /\ (1/2 <= u -> v <= r).
Proof.
  intros Hc Hs He Hs0 He0 _ _ Hu.
  assert (Hq : 0 < s / e) by (apply Rdiv_lt_0_compat; lra).
  rewrite (Laplace_randomise_finite m s e v u Hc Hs He He0) by lra.
  eexists. split; [reflexivity |].
  set (q := s / e) in *. set (t := u - 1/2).
  assert (Ht : -(1/2) < t < 1/2) by (unfold t; lra).
  assert (Hln : ln (1 - 2 * Rabs t) <= 0).
  { destruct (Req_dec t 0) as [-> | Hne].
    - rewrite Rabs_R0. replace (1 - 2 * 0) with 1 by lra.
      rewrite ln_1. lra.
    - left. rewrite <- ln_1. apply ln_increasing.
      + assert (Rabs t < 1/2) by (apply Rabs_def1; lra). lra.
      + pose proof (Rabs_pos_lt t Hne). lra. }
  split.
  - intros [Hlt | Heq].
    + rewrite Rsign_neg by (unfold t; lra). nra.
    + replace t with 0 by (unfold t; lra). rewrite Rsign_zero. lra.
  - intros [Hlt | Heq].
    + rewrite Rsign_pos by (unfold t; lra). nra.
    + replace t with 0 by (unfold t; lra). rewrite Rsign_zero. lra.
Qed.

Lemma X2_witness :
  exists r,
    Laplace_randomise (VNum (Fin 0)) (Fin (1/4))
      (laplace_cfg CLaplace (Fin 1) (Fin 0) (Fin 1))
    = (Ok (Fin r), laplace_cfg CLaplace (Fin 1) (Fin 0) (Fin 1))
    /\ (1/4 <= 1/2 -> r <= 0)
    /\ (1/2 <= 1/4 -> 0 <= r).
Proof.
  apply (X2_randomise_centred
           (laplace_cfg CLaplace (Fin 1) (Fin 0) (Fin 1)) 1 1 0 (1/4));
    try reflexivity; try lra.
  rewrite Rabs_R0. apply pow_le. lra.
Defined.

Lemma Laplace_check_inputs_not_a_number (v : pyval) (m : mech) :
  isinstance_Real v = false -> is_set (_epsilon m) = true ->
  Laplace_check_inputs v m
  = (Raise (TypeError "Value to be randomised must be a number"), m).
Proof.
  intros Hv He. unfold Laplace_check_inputs, DPMechanism.check_inputs.
  rewrite Hv. unfold bind, get, ret, raise.
  destruct (_epsilon m); [reflexivity | discriminate].
Qed.

Lemma self_check_inputs_not_a_number (v : pyval) (m : mech) :
  isinstance_Real v = false -> is_set (_epsilon m) = true ->
  self_check_inputs v m
  = (Raise (TypeError "Value to be randomised must be a number"), m).
Proof.
  intros Hv He.
  pose proof (Laplace_check_inputs_not_a_number v m Hv He) as H.
  unfold self_check_inputs, LaplaceTruncated_check_inputs,
    LaplaceFolded_check_inputs.
  rewrite bind_get.
  destruct (cls m); rewrite ?(bind_Raise _ _ _ _ _ H); auto.
Qed.

(** X3.  The type of the value is tested before the sensitivity: once
    epsilon is set (and the bounds, for the truncated and folded
    classes, whose [randomise] checks them first), [randomise] of a
    value that is not a number raises [TypeError] for every class and
    leaves the object as it is, whether a sensitivity is set or not. *)
Theorem X3_randomise_rejects_non_numbers (fuel : nat) (m : mech)
  (v : pyval) (u : float64) :
  isinstance_Real v = false ->
  is_set (_epsilon m) = true ->
  match cls m with
  | CLaplaceTruncated | CLaplaceFolded =>
      is_set (_lower_bound m) && is_set (_upper_bound m)
  | _ => true
  end = true ->
  randomise fuel v u m
  = (Raise (TypeError "Value to be randomised must be a number"), m).
Proof.
  intros Hv He Hb.
  pose proof (self_check_inputs_not_a_number v m Hv He) as Hc.
  assert (HL : Laplace_randomise v u m
               = (Raise (TypeError "Value to be randomised must be a number"),
                  m)).
  { unfold Laplace_randomise. apply bind_Raise. exact Hc. }
  unfold randomise. rewrite bind_get.
  destruct (cls m).
  - exact HL.
  - apply andb_true_iff in Hb as [Hl Hu].
    unfold LaplaceTruncated_randomise.
    rewrite (bind_Ok _ _ _ _ _ (domain_check_inputs_ok v m Hl Hu)).
    apply bind_Raise. exact HL.
  - apply andb_true_iff in Hb as [Hl Hu].
    unfold LaplaceFolded_randomise.
    rewrite (bind_Ok _ _ _ _ _ (domain_check_inputs_ok v m Hl Hu)).
    apply bind_Raise. exact HL.
  - unfold LaplaceBoundedDomain_randomise. apply bind_Raise. exact Hc.
  - unfold LaplaceBoundedNoise_randomise. apply bind_Raise. exact Hc.
Qed.

(** An object with epsilon only, and the value "a". *)
Lemma X3_witness :
  randomise 0 (VStr "a") (Fin (1/2))
    (Mech CLaplace (Some (Fin 1)) (Some (Fin 0)) None None None None None
       None)
  = (Raise (TypeError "Value to be randomised must be a number"),
     Mech CLaplace (Some (Fin 1)) (Some (Fin 0)) None None None None None
       None).
Proof.
  apply (X3_randomise_rejects_non_numbers 0
           (Mech CLaplace (Some (Fin 1)) (Some (Fin 0)) None None None None
              None None)
           (VStr "a") (Fin (1/2)));
    reflexivity.
Defined.

(** X4.  With epsilon [inf] the base mechanism adds no noise: for a
    finite sensitivity, [randomise] returns the value itself for every
    draw in [(0,1)], and [get_variance] returns 0. *)
Theorem X4_infinite_epsilon_adds_no_noise (m : mech) (s v u : R) :
  cls m = CLaplace ->
  _sensitivity m = Some (Fin s) -> _epsilon m = Some PInf ->
  0 < u < 1 ->
  Laplace_randomise (VNum (Fin v)) (Fin u) m = (Ok (Fin v), m)
  /\ Laplace_get_variance (VNum (Fin v)) m = (Ok (Fin 0), m).
Proof.
  intros Hc Hs He Hu.
  pose proof (complete_base m _ _ (or_introl Hc) He Hs) as Hcomp.
  split.
  - unfold Laplace_randomise.
    rewrite (bind_Ok _ _ _ _ _ (self_check_inputs_complete (Fin v) m Hcomp)).
    rewrite (bind_attr _ _ _ _ Hs), (bind_attr _ _ _ _ He).
    unfold pydiv. cbn [F.eqb F.div].
    rewrite bind_ret. cbn [as_number]. rewrite bind_ret.
    change (Fin u - Fin (1/2))%fl with (Fin (u - 1/2)).
    rewrite log_of_shifted_draw by lra.
    cbn. unfold ret. f_equal. f_equal. f_equal. lra.
  - unfold Laplace_get_variance.
    rewrite (bind_Ok _ _ _ _ _ (self_check_inputs_complete (Fin 0) m Hcomp)).
    rewrite (bind_attr _ _ _ _ Hs), (bind_attr _ _ _ _ He).
    unfold pydiv. cbn [F.eqb F.div].
    rewrite bind_ret.
    rewrite (bind_Ok _ _ _ _ _
               (pypow2_finite 0 m
                  ltac:(rewrite Rabs_R0; apply pow_le; lra))).
    cbn. unfold ret. f_equal. f_equal. f_equal. lra.
Qed.

Lemma X4_witness :
  Laplace_randomise (VNum (Fin 5)) (Fin (1/4))
    (laplace_cfg CLaplace PInf (Fin 0) (Fin 1))
  = (Ok (Fin 5), laplace_cfg CLaplace PInf (Fin 0) (Fin 1))
  /\ Laplace_get_variance (VNum (Fin 5))
       (laplace_cfg CLaplace PInf (Fin 0) (Fin 1))
     = (Ok (Fin 0), laplace_cfg CLaplace PInf (Fin 0) (Fin 1)).
Proof.
  apply (X4_infinite_epsilon_adds_no_noise
           (laplace_cfg CLaplace PInf (Fin 0) (Fin 1)) 1 5 (1/4));
    try reflexivity; lra.
Defined.

(** ** Monotone steps *)

Lemma exp_le (x y : R) : x <= y -> Rtrigo_def.exp x <= Rtrigo_def.exp y.
Proof.
  intros [H | ->]; [left; apply exp_increasing; exact H | lra].
Qed.

Lemma Rdiv_le_pos (x y b : R) : 0 < b -> x <= y -> x / b <= y / b.
Proof.
  intros Hb Hxy. apply Rmult_le_compat_r; [| exact Hxy].
  left. apply Rinv_0_lt_compat. exact Hb.
Qed.

(** ** The bias of the truncated mechanism *)

Lemma LaplaceTruncated_get_bias_finite (m : mech) (s e lo up v : R) :
  _sensitivity m = Some (Fin s) -> _epsilon m = Some (Fin e) ->
  _lower_bound m = Some (Fin lo) -> _upper_bound m = Some (Fin up) ->
  0 < s -> 0 < e ->
  LaplaceTruncated_get_bias (VNum (Fin v)) m
  = (Ok (Fin (s / e / 2 * (Rtrigo_def.exp ((lo - v) / (s / e))
                           - Rtrigo_def.exp ((v - up) / (s / e))))),
     m).
Proof.
  intros Hs He Hlo Hup Hs0 He0.
  assert (Hq : 0 < s / e) by (apply Rdiv_lt_0_compat; lra).
  unfold LaplaceTruncated_get_bias.
  rewrite (bind_Ok _ _ _ _ _
             (self_check_inputs_complete (Fin v) m
                (complete_bounded m _ _ _ _ He Hs Hlo Hup))).
  rewrite (bind_attr _ _ _ _ Hs), (bind_attr _ _ _ _ He).
  unfold pydiv at 1. cbn [F.eqb]. rewrite Reqb_false by lra.
  rewrite bind_ret.
  rewrite (bind_attr _ _ _ _ Hlo), (bind_attr _ _ _ _ Hup).
  cbn [as_number]. rewrite bind_ret.
  cbn [F.div]. rewrite Reqb_false by lra.
  unfold pydiv. cbn [F.eqb]. rewrite Reqb_false by lra.
  rewrite !bind_ret.
  cbn. rewrite !Reqb_false by lra. reflexivity.
Qed.

(** X5.  The bias of the truncated mechanism points into the domain:
    with finite parameters, [s > 0] and [e > 0] whose quotient [s/e]
    lies between [2^-1000] and [2^1000], where it neither underflows
    nor overflows, and for a value of the domain, [get_bias] returns a
    number that is at least 0 at or below the midpoint of the domain
    and at most 0 at or above it: it is 0 at the midpoint. *)
Theorem X5_truncated_bias_points_inward (m : mech) (s e lo up v : R) :
  _sensitivity m = Some (Fin s) -> _epsilon m = Some (Fin e) ->
  _lower_bound m = Some (Fin lo) -> _upper_bound m = Some (Fin up) ->
  0 < s -> 0 < e -> / 2 ^ 1000 <= s / e <= 2 ^ 1000 ->
  lo <= v <= up ->
  exists b,
    LaplaceTruncated_get_bias (VNum (Fin v)) m = (Ok (Fin b), m)
    /\ (v <= (lo + up) / 2 -> 0 <= b)
    /\ ((lo + up) / 2 <= v -> b <= 0).
Proof.
  intros Hs He Hlo Hup Hs0 He0 _ _.
  assert (Hq : 0 < s / e) by (apply Rdiv_lt_0_compat; lra).
  rewrite (LaplaceTruncated_get_bias_finite m s e lo up _ Hs He Hlo Hup
             Hs0 He0).
  eexists. split; [reflexivity |].
  set (q := s / e) in *.
  split; intros Hv.
  - assert (Hle : v - up <= lo - v) by lra.
    pose proof (exp_le _ _ (Rdiv_le_pos _ _ q Hq Hle)).
    apply Rmult_le_pos; lra.
  - assert (Hle : lo - v <= v - up) by lra.
    pose proof (exp_le _ _ (Rdiv_le_pos _ _ q Hq Hle)).
    assert (0 <= q / 2 * (Rtrigo_def.exp ((v - up) / q)
                          - Rtrigo_def.exp ((lo - v) / q)))
      by (apply Rmult_le_pos; lra).
    lra.
Qed.

Lemma X5_witness :
  exists b,
    LaplaceTruncated_get_bias (VNum (Fin (1/4)))
      (bounded_cfg CLaplaceTruncated (Fin 1) (Fin 0) (Fin 1) (Fin 0) (Fin 1))
    = (Ok (Fin b),
       bounded_cfg CLaplaceTruncated (Fin 1) (Fin 0) (Fin 1) (Fin 0) (Fin 1))
    /\ (1/4 <= (0 + 1) / 2 -> 0 <= b)
    /\ ((0 + 1) / 2 <= 1/4 -> b <= 0).
Proof.
  assert (H1 : 1 <= 2 ^ 1000) by (apply pow_R1_Rle; lra).
  assert (H2 : / 2 ^ 1000 <= 1).
  { rewrite <- Rinv_1. apply Rinv_le_contravar; lra. }
  apply (X5_truncated_bias_points_inward
           (bounded_cfg CLaplaceTruncated (Fin 1) (Fin 0) (Fin 1)
              (Fin 0) (Fin 1))
           1 1 0 1 (1/4));
    try reflexivity; lra.
Defined.

(** ** The distribution function *)

Lemma Rlaplace_cdf_range (b x : R) : 0 < b -> 0 < Rlaplace_cdf b x < 1.
Proof.
  intros Hb. unfold Rlaplace_cdf.
  destruct (Rlt_dec x 0) as [Hx | Hx].
  - rewrite Rltb_true by exact Hx.
    pose proof (exp_pos (x / b)).
    assert (Rtrigo_def.exp (x / b) <= 1).
    { rewrite <- exp_0. apply exp_le.
      replace 0 with (0 / b) by (field; lra). apply Rdiv_le_pos; lra. }
    lra.
  - rewrite Rltb_false by lra.
    pose proof (exp_pos (- x / b)).
    assert (Rtrigo_def.exp (- x / b) <= 1).
    { rewrite <- exp_0. apply exp_le.
      replace 0 with (0 / b) by (field; lra). apply Rdiv_le_pos; lra. }
    lra.
Qed.

Lemma Rlaplace_cdf_monotone (b x y : R) :
  0 < b -> x <= y -> Rlaplace_cdf b x <= Rlaplace_cdf b y.
Proof.
  intros Hb Hxy. unfold Rlaplace_cdf.
  destruct (Rlt_dec x 0) as [Hx | Hx]; destruct (Rlt_dec y 0) as [Hy | Hy];
    rewrite ?(Rltb_true x), ?(Rltb_true y), ?(Rltb_false x), ?(Rltb_false y)
      by lra; try lra.
  - pose proof (exp_le (x / b) (y / b) (Rdiv_le_pos _ _ b Hb Hxy)). lra.
  - assert (H1 : Rtrigo_def.exp (x / b) <= 1).
    { rewrite <- exp_0. apply exp_le.
      replace 0 with (0 / b) by (field; lra). apply Rdiv_le_pos; lra. }
    assert (H2 : Rtrigo_def.exp (- y / b) <= 1).
    { rewrite <- exp_0. apply exp_le.
      replace 0 with (0 / b) by (field; lra). apply Rdiv_le_pos; lra. }
    lra.
  - assert (Hyx : - y <= - x) by lra.
    pose proof (exp_le (- y / b) (- x / b)
                  (Rdiv_le_pos _ _ b Hb Hyx)). lra.
Qed.

Lemma Rlaplace_cdf_halves (b x : R) :
  0 < b ->
  (x < 0 -> Rlaplace_cdf b x <= 1/2)
  /\ (0 <= x -> 1/2 <= Rlaplace_cdf b x)
  /\ (x = 0 -> Rlaplace_cdf b x = 1/2).
Proof.
  intros Hb. unfold Rlaplace_cdf. refine (conj _ (conj _ _)); intros Hx.
  - rewrite Rltb_true by exact Hx.
    assert (Rtrigo_def.exp (x / b) <= 1).
    { rewrite <- exp_0. apply exp_le.
      replace 0 with (0 / b) by (field; lra). apply Rdiv_le_pos; lra. }
    lra.
  - rewrite Rltb_false by lra.
    assert (Rtrigo_def.exp (- x / b) <= 1).
    { rewrite <- exp_0. apply exp_le.
      replace 0 with (0 / b) by (field; lra). apply Rdiv_le_pos; lra. }
    lra.
  - subst x. rewrite Rltb_false by lra.
    replace (- 0 / b) with 0 by (field; lra). rewrite exp_0. lra.
Qed.

(** X9.  For a finite positive scale both [_cdf] methods compute a
    distribution function centred at zero: on real arguments the value
    lies in [[0, 1]], it is at most 0.5 below zero, 0.5 at zero and at
    least 0.5 above, and it does not decrease as the argument grows. *)
Theorem X9_cdf_is_a_distribution_function (m : mech) (b x y : R) :
  0 < b -> x <= y ->
  (_scale m = Some (Fin b) ->
   exists cx cy,
     LaplaceBoundedDomain__cdf (Fin x) m = (Ok (Fin cx), m)
     /\ LaplaceBoundedDomain__cdf (Fin y) m = (Ok (Fin cy), m)
     /\ 0 <= cx <= 1 /\ cx <= cy
     /\ (x < 0 -> cx <= 1/2) /\ (0 <= x -> 1/2 <= cx)
     /\ (x = 0 -> cx = 1/2))
  /\ (_shape m = Some (Fin b) ->
      exists cx cy,
        LaplaceBoundedNoise__cdf (Fin x) m = (Ok (Fin cx), m)
        /\ LaplaceBoundedNoise__cdf (Fin y) m = (Ok (Fin cy), m)
        /\ 0 <= cx <= 1 /\ cx <= cy
        /\ (x < 0 -> cx <= 1/2) /\ (0 <= x -> 1/2 <= cx)
        /\ (x = 0 -> cx = 1/2)).
Proof.
  intros Hb Hxy.
  pose proof (Rlaplace_cdf_range b x Hb) as Hr.
  pose proof (Rlaplace_cdf_monotone b x y Hb Hxy) as Hm.
  destruct (Rlaplace_cdf_halves b x Hb) as (H1 & H2 & H3).
  split; intros Hsc.
  - rewrite !(BoundedDomain_cdf_result m _ _ Hsc).
    rewrite !laplace_cdf_finite by exact Hb.
    do 2 eexists. repeat (split; [reflexivity |]).
    refine (conj _ (conj Hm (conj H1 (conj H2 H3)))). lra.
  - rewrite !(BoundedNoise_cdf_result m _ _ Hsc).
    rewrite !laplace_cdf_finite by exact Hb.
    do 2 eexists. repeat (split; [reflexivity |]).
    refine (conj _ (conj Hm (conj H1 (conj H2 H3)))). lra.
Qed.

Lemma X9_witness :
  exists cx cy,
    LaplaceBoundedDomain__cdf (Fin (-1))
      (with_scale (Fin 1)
         (bounded_cfg CLaplaceBoundedDomain (Fin 1) (Fin 0) (Fin 1)
            (Fin 0) (Fin 1)))
    = (Ok (Fin cx),
       with_scale (Fin 1)
         (bounded_cfg CLaplaceBoundedDomain (Fin 1) (Fin 0) (Fin 1)
            (Fin 0) (Fin 1)))
    /\ LaplaceBoundedDomain__cdf (Fin 2)
         (with_scale (Fin 1)
            (bounded_cfg CLaplaceBoundedDomain (Fin 1) (Fin 0) (Fin 1)
               (Fin 0) (Fin 1)))
       = (Ok (Fin cy),
          with_scale (Fin 1)
            (bounded_cfg CLaplaceBoundedDomain (Fin 1) (Fin 0) (Fin 1)
               (Fin 0) (Fin 1)))
    /\ 0 <= cx <= 1 /\ cx <= cy
    /\ (-1 < 0 -> cx <= 1/2) /\ (0 <= -1 -> 1/2 <= cx)
    /\ (-1 = 0 -> cx = 1/2).
Proof.
  apply (proj1 (X9_cdf_is_a_distribution_function
                  (with_scale (Fin 1)
                     (bounded_cfg CLaplaceBoundedDomain (Fin 1) (Fin 0)
                        (Fin 1) (Fin 0) (Fin 1)))
                  1 (-1) 2 ltac:(lra) ltac:(lra)));
    reflexivity.
Defined.

(** ** The scale solver at an infinite epsilon *)

(** The effective epsilon of an infinite epsilon. *)
Lemma get_effective_epsilon_infinite_epsilon (fuel : nat) (m : mech)
  (s : R) (lo up : float64) :
  _sensitivity m = Some (Fin s) -> _epsilon m = Some PInf ->
  _lower_bound m = Some lo -> _upper_bound m = Some up ->
  _scale m = None ->
  0 < s ->
  LaplaceBoundedDomain_get_effective_epsilon fuel m
  = (Ok PInf, with_scale (Fin 0) m).
Proof.
  intros Hs He Hlo Hup Hsc Hs0.
  unfold LaplaceBoundedDomain_get_effective_epsilon.
  rewrite (bind_Ok _ _ _ _ _
             (ensure_scale_solved fuel m _ Hsc
                (find_scale_infinite_epsilon fuel m s lo up He Hs Hlo Hup))).
  rewrite (bind_attr _ _ (with_scale (Fin 0) m) (Fin s) Hs).
  rewrite (bind_attr _ _ (with_scale (Fin 0) m) (Fin 0) eq_refl).
  cbn. rewrite Reqb_true by reflexivity.
  unfold F.signed_inf. rewrite Rltb_true by lra. reflexivity.
Qed.


(** X13.  With epsilon [inf] and a finite sensitivity [s > 0] the
    solver returns the scale 0 for every fuel, and
    [get_effective_epsilon] divides by it as numpy does: it returns
    [inf] and raises nothing. *)
Theorem X13_infinite_epsilon_effective_epsilon (fuel : nat) (m : mech)
  (s : R) (lo up : float64) :
  _sensitivity m = Some (Fin s) -> _epsilon m = Some PInf ->
  _lower_bound m = Some lo -> _upper_bound m = Some up ->
  _scale m = None ->
  0 < s ->
  LaplaceBoundedDomain_get_effective_epsilon fuel m
  = (Ok PInf, with_scale (Fin 0) m).
Proof. exact (get_effective_epsilon_infinite_epsilon fuel m s lo up). Qed.

Lemma X13_witness :
  LaplaceBoundedDomain_get_effective_epsilon 0
    (bounded_cfg CLaplaceBoundedDomain PInf (Fin 0) (Fin 1) (Fin 0) (Fin 1))
  = (Ok PInf,
     with_scale (Fin 0)
       (bounded_cfg CLaplaceBoundedDomain PInf (Fin 0) (Fin 1)
          (Fin 0) (Fin 1))).
Proof.
  apply (X13_infinite_epsilon_effective_epsilon 0
           (bounded_cfg CLaplaceBoundedDomain PInf (Fin 0) (Fin 1)
              (Fin 0) (Fin 1))
           1 (Fin 0) (Fin 1));
    try reflexivity; lra.
Defined.

(** ** The caches *)

Lemma get_effective_epsilon_cached (fuel : nat) (m : mech) (b : float64) :
  _scale m = Some b ->
  LaplaceBoundedDomain_get_effective_epsilon fuel m
  = (match _sensitivity m with
     | Some s => Ok (s / b)%fl
     | None => Raise (TypeError "unsupported operand type(s)")
     end, m).
Proof.
  intros Hsc. unfold LaplaceBoundedDomain_get_effective_epsilon.
  rewrite (bind_Ok _ _ _ _ _ (ensure_scale_cached fuel m b Hsc)).
  unfold bind, attr, ret. destruct (_sensitivity m); [rewrite Hsc |];
    reflexivity.
Qed.

(** X16.  The scale is solved once: after a call of
    [get_effective_epsilon] that returned, every later call returns the
    same value and leaves the object as it is, without running the
    solver (no fuel is needed). *)
Theorem X16_effective_epsilon_is_cached (fuel fuel' : nat) (m m' : mech)
  (r : float64) :
  LaplaceBoundedDomain_get_effective_epsilon fuel m = (Ok r, m') ->
  LaplaceBoundedDomain_get_effective_epsilon fuel' m' = (Ok r, m').
Proof.
  intros H.
  destruct (_scale m) as [b |] eqn:Hsc.
  - rewrite (get_effective_epsilon_cached fuel m b Hsc) in H.
    injection H as Hr <-.
    rewrite (get_effective_epsilon_cached fuel' m b Hsc).
    rewrite Hr. reflexivity.
  - revert H. unfold LaplaceBoundedDomain_get_effective_epsilon at 1.
    unfold ensure_scale. unfold bind at 1 2. unfold get at 1.
    rewrite Hsc. unfold bind at 1.
    rewrite find_scale_result.
    destruct (match _epsilon m with Some _ => _ | None => _ end)
      as [b | e | ]; try discriminate.
    unfold get, put, bind, attr, ret. cbn.
    destruct (_sensitivity m) as [s |] eqn:Hs; try discriminate.
    intros [= <- <-].
    rewrite (get_effective_epsilon_cached fuel' (with_scale b m) b eq_refl).
    cbn. rewrite Hs. reflexivity.
Qed.

Lemma X16_witness :
  LaplaceBoundedDomain_get_effective_epsilon 0
    (with_scale (Fin 0)
       (bounded_cfg CLaplaceBoundedDomain PInf (Fin 0) (Fin 1)
          (Fin 0) (Fin 1)))
  = (Ok PInf,
     with_scale (Fin 0)
       (bounded_cfg CLaplaceBoundedDomain PInf (Fin 0) (Fin 1)
          (Fin 0) (Fin 1))).
Proof.
  apply (X16_effective_epsilon_is_cached 0 0
           (bounded_cfg CLaplaceBoundedDomain PInf (Fin 0) (Fin 1)
              (Fin 0) (Fin 1))).
  apply (get_effective_epsilon_infinite_epsilon 0 _ 1 (Fin 0) (Fin 1));
    try reflexivity; lra.
Defined.

Lemma complete_with_sensitivity (s : float64) (m : mech) :
  complete m = true -> complete (with_sensitivity s m) = true.
Proof.
  unfold complete. cbn. destruct (_epsilon m); [| discriminate].
  destruct (_sensitivity m); [| discriminate]. cbn. auto.
Qed.

(** X17.  [set_sensitivity] leaves the caches alone: after it, a
    bounded-domain mechanism with a cached scale [b] reports the new
    sensitivity over the old scale, without solving again, and a
    bounded-noise mechanism with a cached shape and noise bound samples
    exactly as before the change. *)
Theorem X17_set_sensitivity_keeps_caches (fuel : nat) (m : mech)
  (s2 x u : float64) :
  F.leb s2 (Fin 0) = false ->
  (forall b,
      _scale m = Some b ->
      (Laplace_set_sensitivity (VNum s2) ;;;
       LaplaceBoundedDomain_get_effective_epsilon fuel) m
      = (Ok (s2 / b)%fl, with_sensitivity s2 m))
  /\ (forall sh nb,
         complete m = true ->
         _shape m = Some sh -> _noise_bound m = Some nb ->
         (Laplace_set_sensitivity (VNum s2) ;;;
          LaplaceBoundedNoise_randomise (VNum x) u) m
         = (fst (LaplaceBoundedNoise_randomise (VNum x) u m),
            with_sensitivity s2 m)).
Proof.
  intros Hs2.
  assert (Hset : Laplace_set_sensitivity (VNum s2) m
                 = (Ok (with_sensitivity s2 m), with_sensitivity s2 m)).
  { unfold Laplace_set_sensitivity. rewrite Hs2. reflexivity. }
  split.
  - intros b Hsc. rewrite (bind_Ok _ _ _ _ _ Hset).
    rewrite (get_effective_epsilon_cached fuel (with_sensitivity s2 m) b Hsc).
    reflexivity.
  - intros sh nb Hcomp Hsh Hnb. rewrite (bind_Ok _ _ _ _ _ Hset).
    rewrite (BoundedNoise_randomise_after m m sh nb x u Hcomp
               (ensure_noise_bound_cached m _ _ Hsh Hnb) Hsh Hnb).
    rewrite (BoundedNoise_randomise_after (with_sensitivity s2 m)
               (with_sensitivity s2 m) sh nb x u
               (complete_with_sensitivity s2 m Hcomp)
               (ensure_noise_bound_cached (with_sensitivity s2 m) _ _
                  Hsh Hnb) Hsh Hnb).
    reflexivity.
Qed.

(** Sensitivity 1 and epsilon 1 on [[0, 1]] with the scale 1 cached,
    and the new sensitivity 1/2. *)
Lemma X17_witness :
  (Laplace_set_sensitivity (VNum (Fin (1/2))) ;;;
   LaplaceBoundedDomain_get_effective_epsilon 0)
    (with_scale (Fin 1)
       (bounded_cfg CLaplaceBoundedDomain (Fin 1) (Fin 0) (Fin 1)
          (Fin 0) (Fin 1)))
  = (Ok (Fin (1/2) / Fin 1)%fl,
     with_sensitivity (Fin (1/2))
       (with_scale (Fin 1)
          (bounded_cfg CLaplaceBoundedDomain (Fin 1) (Fin 0) (Fin 1)
             (Fin 0) (Fin 1)))).
Proof.
  apply (proj1 (X17_set_sensitivity_keeps_caches 0
                  (with_scale (Fin 1)
                     (bounded_cfg CLaplaceBoundedDomain (Fin 1) (Fin 0)
                        (Fin 1) (Fin 0) (Fin 1)))
                  (Fin (1/2)) (Fin 0) (Fin 0)
                  ltac:(cbn; apply Rleb_false; lra))).
  reflexivity.
Defined.

(** ** What no operation changes *)

Lemma same_configuration_refl (m : mech) : same_configuration m m.
Proof. repeat split. Qed.

Lemma same_configuration_trans (m1 m2 m3 : mech) :
  same_configuration m1 m2 -> same_configuration m2 m3 ->
  same_configuration m1 m3.
Proof.
  intros (A1 & A2 & A3 & A4 & A5 & A6) (B1 & B2 & B3 & B4 & B5 & B6).
  repeat split; congruence.
Qed.

Lemma keeps_ret {A} (a : A) : keeps_configuration (ret a).
Proof. intros m. apply same_configuration_refl. Qed.

Lemma keeps_raise {A} (e : exn) : keeps_configuration (@raise A e).
Proof. intros m. apply same_configuration_refl. Qed.

Lemma keeps_get : keeps_configuration get.
Proof. intros m. apply same_configuration_refl. Qed.

Lemma keeps_lift {A} (r : res A) : keeps_configuration (lift r).
Proof. intros m. apply same_configuration_refl. Qed.

Lemma keeps_attr (f : mech -> option float64) : keeps_configuration (attr f).
Proof.
  intros m. unfold attr. destruct (f m); apply same_configuration_refl.
Qed.

Lemma keeps_as_number (v : pyval) : keeps_configuration (as_number v).
Proof. destruct v; intros m; apply same_configuration_refl. Qed.

Lemma keeps_pydiv (a b : float64) : keeps_configuration (pydiv a b).
Proof.
  unfold pydiv. destruct (F.eqb b (Fin 0)); intros m;
    apply same_configuration_refl.
Qed.

Lemma keeps_pypow2 (x : float64) : keeps_configuration (pypow2 x).
Proof.
  intros m. unfold pypow2.
  destruct x; [destruct (Rltb _ _) | | |]; apply same_configuration_refl.
Qed.

Lemma keeps_bind {A B} (c : M A) (k : A -> M B) :
  keeps_configuration c -> (forall a, keeps_configuration (k a)) ->
  keeps_configuration (bind c k).
Proof.
  intros Hc Hk m. unfold bind. specialize (Hc m).
  destruct (c m) as [[a | e |] m1]; cbn [snd] in *; try exact Hc.
  eapply same_configuration_trans; [exact Hc | apply Hk].
Qed.

(** An assignment to a cache: [self._scale = ...] and the like. *)
Lemma keeps_assign {B} (f : mech -> mech) (k : M B) :
  (forall m, same_configuration m (f m)) ->
  keeps_configuration k ->
  keeps_configuration (m <- get ;; put (f m) ;;; k).
Proof.
  intros Hf Hk m. unfold bind, get, put.
  eapply same_configuration_trans; [apply Hf | apply Hk].
Qed.

Lemma keeps_assign_last (f : mech -> mech) :
  (forall m, same_configuration m (f m)) ->
  keeps_configuration (m <- get ;; put (f m)).
Proof. intros Hf m. unfold bind, get, put. cbn. apply Hf. Qed.

(** Walks through a method, one statement at a time. *)
Ltac keeps_step :=
  lazymatch goal with
  | |- keeps_configuration (ret _) => apply keeps_ret
  | |- keeps_configuration (raise _) => apply keeps_raise
  | |- keeps_configuration get => apply keeps_get
  | |- keeps_configuration (lift _) => apply keeps_lift
  | |- keeps_configuration (attr _) => apply keeps_attr
  | |- keeps_configuration (as_number _) => apply keeps_as_number
  | |- keeps_configuration (pydiv _ _) => apply keeps_pydiv
  | |- keeps_configuration (pypow2 _) => apply keeps_pypow2
  | |- keeps_configuration
         (bind get (fun m => bind (put (@?f m)) (fun _ => ?k))) =>
      apply (keeps_assign f k); [intros ?; repeat split |]
  | |- keeps_configuration (bind get (fun m => put (@?f m))) =>
      apply (keeps_assign_last f); intros ?; repeat split
  | |- keeps_configuration (bind _ _) => apply keeps_bind; [| intros ?]
  | |- keeps_configuration (if ?b then _ else _) => destruct b
  | |- keeps_configuration (match ?x with _ => _ end) => destruct x
  end.

Ltac keeps := cbv beta zeta; repeat (keeps_step; cbv beta zeta).

Lemma keeps_self_check_inputs (v : pyval) :
  keeps_configuration (self_check_inputs v).
Proof.
  unfold self_check_inputs, LaplaceTruncated_check_inputs,
    LaplaceFolded_check_inputs, Laplace_check_inputs,
    DPMechanism.check_inputs, TruncationAndFoldingMachine.check_inputs.
  keeps.
Qed.

Lemma keeps_domain_check_inputs (v : pyval) :
  keeps_configuration (TruncationAndFoldingMachine.check_inputs v).
Proof. unfold TruncationAndFoldingMachine.check_inputs. keeps. Qed.

Lemma keeps_Laplace_randomise (v : pyval) (u : float64) :
  keeps_configuration (Laplace_randomise v u).
Proof.
  unfold Laplace_randomise.
  apply keeps_bind; [apply keeps_self_check_inputs | intros _]. keeps.
Qed.

Lemma keeps_ensure_scale (fuel : nat) :
  keeps_configuration (ensure_scale fuel).
Proof.
  unfold ensure_scale, LaplaceBoundedDomain__find_scale. keeps.
Qed.

Lemma keeps_ensure_noise_bound : keeps_configuration ensure_noise_bound.
Proof. unfold ensure_noise_bound. keeps. Qed.

Lemma keeps_self_get_bias (fuel : nat) (v : pyval) :
  keeps_configuration (self_get_bias fuel v).
Proof.
  unfold self_get_bias, Laplace_get_bias, LaplaceTruncated_get_bias,
    LaplaceFolded_get_bias, LaplaceBoundedDomain_get_bias,
    LaplaceBoundedNoise_get_bias.
  apply keeps_bind; [apply keeps_get | intros m0].
  destruct (cls m0);
    try (apply keeps_bind; [apply keeps_self_check_inputs | intros _]);
    try (apply keeps_bind; [apply keeps_ensure_scale | intros _]);
    keeps.
Qed.

Lemma keeps_randomise (fuel : nat) (v : pyval) (u : float64) :
  keeps_configuration (randomise fuel v u).
Proof.
  unfold randomise.
  apply keeps_bind; [apply keeps_get | intros m0].
  destruct (cls m0).
  - apply keeps_Laplace_randomise.
  - unfold LaplaceTruncated_randomise,
      TruncationAndFoldingMachine._truncate.
    apply keeps_bind; [apply keeps_domain_check_inputs | intros _].
    apply keeps_bind; [apply keeps_Laplace_randomise | intros x]. keeps.
  - unfold LaplaceFolded_randomise, TruncationAndFoldingMachine._fold.
    apply keeps_bind; [apply keeps_domain_check_inputs | intros _].
    apply keeps_bind; [apply keeps_Laplace_randomise | intros x]. keeps.
  - unfold LaplaceBoundedDomain_randomise, LaplaceBoundedDomain__cdf.
    apply keeps_bind; [apply keeps_self_check_inputs | intros _].
    apply keeps_bind; [apply keeps_ensure_scale | intros _]. keeps.
  - unfold LaplaceBoundedNoise_randomise, LaplaceBoundedNoise__cdf.
    apply keeps_bind; [apply keeps_self_check_inputs | intros _].
    apply keeps_bind; [apply keeps_ensure_noise_bound | intros _]. keeps.
Qed.

Lemma keeps_get_variance (fuel : nat) (v : pyval) :
  keeps_configuration (get_variance fuel v).
Proof.
  unfold get_variance.
  apply keeps_bind; [apply keeps_get | intros m0].
  destruct (cls m0).
  - unfold Laplace_get_variance.
    apply keeps_bind; [| intros ?; apply keeps_ret].
    apply keeps_bind; [apply keeps_self_check_inputs | intros _]. keeps.
  - unfold LaplaceTruncated_get_variance.
    apply keeps_bind; [| intros ?; apply keeps_ret].
    apply keeps_bind; [apply keeps_self_check_inputs | intros _].
    do 9 (apply keeps_bind; [keeps | intros ?]).
    cbv zeta.
    apply keeps_bind; [keeps | intros ?].
    apply keeps_bind; [apply keeps_self_get_bias | intros ?]. keeps.
  - apply keeps_ret.
  - unfold LaplaceBoundedDomain_get_variance.
    apply keeps_bind; [| intros ?; apply keeps_ret].
    apply keeps_bind; [apply keeps_self_check_inputs | intros _].
    apply keeps_bind; [apply keeps_ensure_scale | intros _].
    do 4 (apply keeps_bind; [keeps | intros ?]).
    cbv zeta.
    do 3 (apply keeps_bind; [keeps | intros ?]).
    apply keeps_bind; [apply keeps_self_get_bias | intros ?]. keeps.
  - apply keeps_ret.
Qed.

(** X18.  No operation changes what was configured: whatever the
    arguments, the fuel and the outcome (a value, an exception, or an
    unfinished loop), [randomise], [get_bias] and [get_variance] of
    every class and [get_effective_epsilon] leave the class, epsilon,
    delta, the sensitivity and both bounds of the object as they were.
    Only the caches [_scale], [_shape] and [_noise_bound] can
    change. *)
Theorem X18_operations_keep_the_configuration (fuel : nat) (v : pyval)
  (u : float64) (m : mech) :
  same_configuration m (snd (randomise fuel v u m))
  /\ same_configuration m (snd (get_bias fuel v m))
  /\ same_configuration m (snd (get_variance fuel v m))
  /\ same_configuration m
       (snd (LaplaceBoundedDomain_get_effective_epsilon fuel m)).
Proof.
  refine (conj _ (conj _ (conj _ _))).
  - apply keeps_randomise.
  - unfold get_bias.
    apply (keeps_bind (self_get_bias fuel v) (fun x => ret (VNum x)));
      [apply keeps_self_get_bias | intros ?; apply keeps_ret].
  - apply keeps_get_variance.
  - unfold LaplaceBoundedDomain_get_effective_epsilon.
    apply (keeps_bind (ensure_scale fuel));
      [apply keeps_ensure_scale | intros _]. keeps.
Qed.

(** ** Setting the sensitivity *)

(** X19.  The last accepted sensitivity is the one in force, and a
    rejected one changes nothing: on a base mechanism with a finite
    epsilon [e > 0], after [set_sensitivity(s1)] and
    [set_sensitivity(s2)] with [s1, s2 > 0], [get_variance] returns
    [2 * (s2/e)^2]; and after [set_sensitivity(s1)], a call with a
    number [<= 0] raises and [get_variance] still returns
    [2 * (s1/e)^2].  Both quotients are at most [2^500], where the
    square is far from overflowing. *)
Theorem X19_last_sensitivity_wins (m : mech) (e s1 s2 : R) (bad : float64)
  (value : pyval) :
  cls m = CLaplace -> _epsilon m = Some (Fin e) -> 0 < e ->
  0 < s1 -> 0 < s2 -> s1 / e <= 2 ^ 500 -> s2 / e <= 2 ^ 500 ->
  F.leb bad (Fin 0) = true ->
  (Laplace_set_sensitivity (VNum (Fin s1)) ;;;
   Laplace_set_sensitivity (VNum (Fin s2)) ;;;
   Laplace_get_variance value) m
  = (Ok (Fin (2 * (s2 / e * (s2 / e)))),
     with_sensitivity (Fin s2) (with_sensitivity (Fin s1) m))
  /\ (Laplace_set_sensitivity (VNum (Fin s1)) ;;;
      Laplace_set_sensitivity (VNum bad)) m
     = (Raise (ValueError "Sensitivity must be strictly positive"),
        with_sensitivity (Fin s1) m)
  /\ Laplace_get_variance value (with_sensitivity (Fin s1) m)
     = (Ok (Fin (2 * (s1 / e * (s1 / e)))), with_sensitivity (Fin s1) m).
Proof.
  intros Hc He He0 Hs1 Hs2 Hq1 Hq2 Hbad.
  assert (Hset : forall s n, 0 < s ->
            Laplace_set_sensitivity (VNum (Fin s)) n
            = (Ok (with_sensitivity (Fin s) n), with_sensitivity (Fin s) n)).
  { intros s n Hs. unfold Laplace_set_sensitivity. cbn [F.leb].
    rewrite Rleb_false by lra. reflexivity. }
  assert (Hvar : forall s n, cls n = CLaplace -> _epsilon n = Some (Fin e) ->
            0 < s -> s / e <= 2 ^ 500 ->
            Laplace_get_variance value (with_sensitivity (Fin s) n)
            = (Ok (Fin (2 * (s / e * (s / e)))), with_sensitivity (Fin s) n)).
  { intros s n Hcn Hen Hs0 Hq. unfold Laplace_get_variance.
    assert (Hpos : 0 < s / e) by (apply Rdiv_lt_0_compat; lra).
    rewrite (bind_Ok _ _ _ _ _
               (self_check_inputs_complete (Fin 0) (with_sensitivity (Fin s) n)
                  (complete_base (with_sensitivity (Fin s) n) (Fin e) (Fin s)
                     (or_introl Hcn) Hen eq_refl))).
    rewrite (bind_attr _ _ (with_sensitivity (Fin s) n) (Fin s) eq_refl).
    rewrite (bind_attr _ _ (with_sensitivity (Fin s) n) (Fin e) Hen).
    unfold pydiv. cbn [F.eqb F.div]. rewrite !Reqb_false by lra.
    rewrite bind_ret.
    rewrite (bind_Ok _ _ _ _ _
               (pypow2_finite (s / e) (with_sensitivity (Fin s) n)
                  ltac:(rewrite Rabs_right by lra; exact Hq))).
    reflexivity. }
  refine (conj _ (conj _ _)).
  - rewrite (bind_Ok _ _ _ _ _ (Hset s1 m Hs1)).
    rewrite (bind_Ok _ _ _ _ _ (Hset s2 _ Hs2)).
    apply (Hvar s2 (with_sensitivity (Fin s1) m)); assumption.
  - rewrite (bind_Ok _ _ _ _ _ (Hset s1 m Hs1)).
    unfold Laplace_set_sensitivity. rewrite Hbad. reflexivity.
  - apply Hvar; assumption.
Qed.

Lemma X19_witness :
  (Laplace_set_sensitivity (VNum (Fin 1)) ;;;
   Laplace_set_sensitivity (VNum (Fin 2)) ;;;
   Laplace_get_variance (VNum (Fin 0)))
    (Mech CLaplace (Some (Fin 1)) (Some (Fin 0)) None None None None None
       None)
  = (Ok (Fin (2 * (2 / 1 * (2 / 1)))),
     with_sensitivity (Fin 2)
       (with_sensitivity (Fin 1)
          (Mech CLaplace (Some (Fin 1)) (Some (Fin 0)) None None None None
             None None))).
Proof.
  assert (H1 : 1 <= 2 ^ 499) by (apply pow_R1_Rle; lra).
  assert (H2 : 2 <= 2 ^ 500) by (change (2 ^ 500) with (2 * 2 ^ 499); lra).
  apply (X19_last_sensitivity_wins
           (Mech CLaplace (Some (Fin 1)) (Some (Fin 0)) None None None None
              None None)
           1 1 2 (Fin (-1)) (VNum (Fin 0)));
    try reflexivity; try lra.
  cbn. apply Rleb_true. lra.
Defined.

(** X21.  Python's [**] raises where the square overflows: on a base
    mechanism with finite sensitivity [s] and epsilon [e > 0] whose
    quotient [s/e] is between [2^520] and [2^1000] in magnitude,
    [get_variance] raises [OverflowError] for every argument and leaves
    the object as it is. *)
Theorem X21_get_variance_overflows (m : mech) (s e : R) (value : pyval) :
  cls m = CLaplace ->
  _sensitivity m = Some (Fin s) -> _epsilon m = Some (Fin e) ->
  0 < e -> 2 ^ 520 <= Rabs (s / e) <= 2 ^ 1000 ->
  exists msg,
    Laplace_get_variance value m = (Raise (OverflowError msg), m).
Proof.
  intros Hc Hs He He0 [Hq _].
  destruct (pypow2_overflow (s / e) m Hq) as [msg Hp].
  exists msg. unfold Laplace_get_variance.
  rewrite (bind_Ok _ _ _ _ _
             (self_check_inputs_complete (Fin 0) m
                (complete_base m _ _ (or_introl Hc) He Hs))).
  rewrite (bind_attr _ _ _ _ Hs), (bind_attr _ _ _ _ He).
  unfold pydiv. cbn [F.eqb F.div]. rewrite !Reqb_false by lra.
  rewrite bind_ret.
  apply bind_Raise. exact Hp.
Qed.

(** Sensitivity [2^700] and epsilon 1. *)
Lemma X21_witness :
  exists msg,
    Laplace_get_variance (VNum (Fin 0))
      (laplace_cfg CLaplace (Fin 1) (Fin 0) (Fin (2 ^ 700)))
    = (Raise (OverflowError msg),
       laplace_cfg CLaplace (Fin 1) (Fin 0) (Fin (2 ^ 700))).
Proof.
  apply (X21_get_variance_overflows
           (laplace_cfg CLaplace (Fin 1) (Fin 0) (Fin (2 ^ 700)))
           (2 ^ 700) 1 (VNum (Fin 0)));
    try reflexivity; try lra.
  assert (Hp : 0 < 2 ^ 700) by (apply pow_lt; lra).
  replace (2 ^ 700 / 1) with (2 ^ 700) by lra.
  rewrite Rabs_right by lra.
  split; (apply Rle_pow; [lra | apply Nat.leb_le; reflexivity]).
Defined.

(** X20.  [nan] passes the validation of [set_sensitivity], since
    [nan <= 0] is false, and is stored; on a base mechanism with a
    finite epsilon [e > 0] every later [randomise] then returns [nan],
    whatever the number and the draw. *)
Theorem X20_nan_sensitivity_is_accepted (m : mech) (e : R) (x u : float64) :
  cls m = CLaplace -> _epsilon m = Some (Fin e) -> 0 < e ->
  Laplace_set_sensitivity (VNum NaN) m
  = (Ok (with_sensitivity NaN m), with_sensitivity NaN m)
  /\ Laplace_randomise (VNum x) u (with_sensitivity NaN m)
     = (Ok NaN, with_sensitivity NaN m).
Proof.
  intros Hc He He0. split; [reflexivity |].
  unfold Laplace_randomise.
  rewrite (bind_Ok _ _ _ _ _
             (self_check_inputs_complete x (with_sensitivity NaN m)
                (complete_base (with_sensitivity NaN m) (Fin e) NaN
                   (or_introl Hc) He eq_refl))).
  rewrite (bind_attr _ _ (with_sensitivity NaN m) NaN eq_refl).
  rewrite (bind_attr _ _ (with_sensitivity NaN m) (Fin e) He).
  unfold pydiv. cbn [F.eqb]. rewrite Reqb_false by lra.
  rewrite bind_ret. cbn [as_number]. rewrite bind_ret.
  cbn [F.div F.mul]. unfold ret. rewrite sub_NaN_r. reflexivity.
Qed.

Lemma X20_witness :
  Laplace_set_sensitivity (VNum NaN)
    (Mech CLaplace (Some (Fin 1)) (Some (Fin 0)) None None None None None
       None)
  = (Ok (with_sensitivity NaN
           (Mech CLaplace (Some (Fin 1)) (Some (Fin 0)) None None None None
              None None)),
     with_sensitivity NaN
       (Mech CLaplace (Some (Fin 1)) (Some (Fin 0)) None None None None
          None None))
  /\ Laplace_randomise (VNum (Fin 5)) (Fin (1/4))
       (with_sensitivity NaN
          (Mech CLaplace (Some (Fin 1)) (Some (Fin 0)) None None None None
             None None))
     = (Ok NaN,
        with_sensitivity NaN
          (Mech CLaplace (Some (Fin 1)) (Some (Fin 0)) None None None None
             None None)).
Proof.
  apply (X20_nan_sensitivity_is_accepted
           (Mech CLaplace (Some (Fin 1)) (Some (Fin 0)) None None None None
              None None)
           1 (Fin 5) (Fin (1/4)));
    try reflexivity; lra.
Defined.
